(** * generate_readme_from_orcid.py: a shallow embedding and its properties

    The script fetches a public ORCID record, fetches one detailed work per
    work group, extracts bibliographic fields from the (loosely shaped) JSON,
    sorts the rows by year and writes a markdown table.

    JSON values are embedded as an inductive type; Python exceptions as an
    error result; the network and the process effects of [main] as an
    explicit state with an event trace.

    Scope of the string model: a Python [str] is a Rocq [string] whose
    characters are the code points 0..255.  [str.strip], [str.lower] and
    [int(str)] are given with CPython's behaviour on that range. *)

From Stdlib Require Import List String Ascii ZArith NArith Bool Lia.
From Stdlib Require Import SpecFloat Sorted Permutation.
Import ListNotations.
Local Open Scope string_scope.
Local Open Scope list_scope.
Set Warnings "-register-all".

(* ================================================================= *)
(** ** Python values and exceptions *)

(** What [json.loads] can produce.  A dict is an association list read by
    its first binding of a key; JSON object keys are always strings. *)
Inductive value : Type :=
| VNone
| VBool (b : bool)
| VInt (z : Z)
| VFloat (f : spec_float)
| VStr (s : string)
| VList (l : list value)
| VDict (d : list (string * value)).

Inductive exn : Type :=
| AttributeError
| TypeError
| ValueError
| KeyError
| IndexError
| OverflowError
| FetchError.

Inductive result (A : Type) : Type :=
| Ok (a : A)
| Raise (e : exn).
Arguments Ok {A} a.
Arguments Raise {A} e.

Definition bind {A B : Type} (r : result A) (k : A -> result B) : result B :=
  match r with
  | Ok a => k a
  | Raise e => Raise e
  end.

Notation "x <- c ;; k" := (bind c (fun x => k))
  (at level 61, c at next level, right associativity).

Definition is_ok {A : Type} (r : result A) : bool :=
  match r with Ok _ => true | Raise _ => false end.

(** [bool(v)] *)
Definition truthy (v : value) : bool :=
  match v with
  | VNone => false
  | VBool b => b
  | VInt z => negb (z =? 0)%Z
  | VFloat (S754_zero _) => false
  | VFloat _ => true
  | VStr "" => false
  | VStr _ => true
  | VList [] => false
  | VList _ => true
  | VDict [] => false
  | VDict _ => true
  end.

(** [a or b], for a [b] whose evaluation cannot fail *)
Definition py_or (a b : value) : value := if truthy a then a else b.

Fixpoint dict_lookup (d : list (string * value)) (k : string) : option value :=
  match d with
  | [] => None
  | (k', v) :: r => if String.eqb k' k then Some v else dict_lookup r k
  end.

(** [v.get(k, default)]: only a dict has the method *)
Definition py_get (v : value) (k : string) (default : value) : result value :=
  match v with
  | VDict d =>
      match dict_lookup d k with
      | Some x => Ok x
      | None => Ok default
      end
  | _ => Raise AttributeError
  end.

Definition isinstance_dict (v : value) : bool :=
  match v with VDict _ => true | _ => false end.

Definition isinstance_str (v : value) : bool :=
  match v with VStr _ => true | _ => false end.

Fixpoint chars (s : string) : list value :=
  match s with
  | "" => []
  | String c r => VStr (String c "") :: chars r
  end.

(** The sequence a [for] loop walks: list items, dict keys, the characters
    of a string; anything else is not iterable. *)
Definition py_iter (v : value) : result (list value) :=
  match v with
  | VList l => Ok l
  | VDict d => Ok (map (fun kv => VStr (fst kv)) d)
  | VStr s => Ok (chars s)
  | _ => Raise TypeError
  end.

(** [v[0]] *)
Definition py_index0 (v : value) : result value :=
  match v with
  | VList [] => Raise IndexError
  | VList (x :: _) => Ok x
  | VStr "" => Raise IndexError
  | VStr (String c _) => Ok (VStr (String c ""))
  | VDict _ => Raise KeyError
  | _ => Raise TypeError
  end.

(* ================================================================= *)
(** ** Python string methods *)

Definition is_space (c : ascii) : bool :=
  let n := N_of_ascii c in
  ((9 <=? n) && (n <=? 13) || (28 <=? n) && (n <=? 32)
   || (n =? 133) || (n =? 160))%N.

Fixpoint lstrip (s : string) : string :=
  match s with
  | "" => ""
  | String c r => if is_space c then lstrip r else s
  end.

Fixpoint rstrip (s : string) : string :=
  match s with
  | "" => ""
  | String c r =>
      match rstrip r with
      | "" => if is_space c then "" else String c ""
      | r' => String c r'
      end
  end.

(** [s.strip()] *)
Definition strip (s : string) : string := rstrip (lstrip s).

Definition lower_char (c : ascii) : ascii :=
  let n := N_of_ascii c in
  if ((65 <=? n) && (n <=? 90)
      || (192 <=? n) && (n <=? 222) && negb (n =? 215))%N
  then ascii_of_N (n + 32) else c.

(** [s.lower()] *)
Fixpoint lower (s : string) : string :=
  match s with
  | "" => ""
  | String c r => String (lower_char c) (lower r)
  end.

(** [s.startswith(p)] *)
Fixpoint startswith (s p : string) : bool :=
  match p with
  | "" => true
  | String a p' =>
      match s with
      | "" => false
      | String b s' => Ascii.eqb a b && startswith s' p'
      end
  end.

(** [p in s] *)
Fixpoint contains (p s : string) : bool :=
  match s with
  | "" => startswith "" p
  | String _ r => startswith s p || contains p r
  end.

(** [s.replace(old, new)]: occurrences are taken left to right and do not
    overlap.  [skip] counts the characters of a matched occurrence that are
    still to be dropped. *)
Fixpoint replace_from (old new : string) (skip : nat) (s : string) : string :=
  match s with
  | "" =>
      match skip, old with
      | O, "" => new
      | _, _ => ""
      end
  | String c r =>
      match skip with
      | S k => replace_from old new k r
      | O =>
          if startswith s old
          then
            (new ++ match old with
                    | "" => String c (replace_from old new 0 r)
                    | _ => replace_from old new (String.length old - 1) r
                    end)%string
          else String c (replace_from old new 0 r)
      end
  end.

Definition replace (s old new : string) : string := replace_from old new 0 s.

(** [s.split(sep, 1)] for a one-character separator *)
Fixpoint split_once (sep : ascii) (s : string) : list string :=
  match s with
  | "" => [""]
  | String c r =>
      if Ascii.eqb c sep then [""; r]
      else
        match split_once sep r with
        | [a] => [String c a]
        | a :: rest => String c a :: rest
        | [] => []
        end
  end.

(** [l[1]] on a list of strings *)
Definition index1 (l : list string) : result string :=
  match l with
  | _ :: x :: _ => Ok x
  | _ => Raise IndexError
  end.

(** [sep.join(items)]: every item has to be a [str] *)
Fixpoint join (sep : string) (items : list value) : result string :=
  match items with
  | [] => Ok ""
  | VStr s :: rest =>
      match rest with
      | [] => Ok s
      | _ :: _ => t <- join sep rest ;; Ok (s ++ sep ++ t)%string
      end
  | _ :: _ => Raise TypeError
  end.

Definition py_lower (v : value) : result string :=
  match v with VStr s => Ok (lower s) | _ => Raise AttributeError end.

(** The receiver of a [str] method such as [val.strip()] *)
Definition as_str (v : value) : result string :=
  match v with VStr s => Ok s | _ => Raise AttributeError end.

(* ================================================================= *)
(** ** The field extractors *)

Definition extract_title (work : value) : result value :=
  if negb (truthy work) then Ok (VStr "")
  else
    a <- py_get work "title" (VDict []) ;;
    b <- py_get (py_or a (VDict [])) "title" (VDict []) ;;
    c <- py_get b "value" VNone ;;
    Ok (py_or c (VStr "")).

Definition credit_name (c : value) : result value :=
  a <- py_get c "credit-name" VNone ;;
  py_get (py_or a (VDict [])) "value" VNone.

Fixpoint collect_names (cs : list value) (contribs : list value)
  : result (list value) :=
  match cs with
  | [] => Ok contribs
  | c :: rest =>
      name <- credit_name c ;;
      collect_names rest (if truthy name then contribs ++ [name] else contribs)
  end.

Definition extract_contributors (work : value) : result (list value) :=
  if negb (truthy work) then Ok []
  else
    a <- py_get work "contributors" (VDict []) ;;
    b <- py_get (py_or a (VDict [])) "contributor" (VList []) ;;
    cs <- py_iter (py_or b (VList [])) ;;
    collect_names cs [].

Definition extract_journal (work : value) : result value :=
  if negb (truthy work) then Ok (VStr "")
  else
    a <- py_get work "journal-title" VNone ;;
    jt <- py_get (py_or a (VDict [])) "value" VNone ;;
    if truthy jt then Ok jt else Ok (VStr "").

(** Lines 62-66: the year of the detailed work, [None] when the code falls
    through to the summary. *)
Definition year_of_work (work : value) : result (option value) :=
  if truthy work then
    a <- py_get work "publication-date" VNone ;;
    let pd := py_or a (VDict []) in
    y <- py_get pd "year" VNone ;;
    year <- py_get (py_or y (VDict [])) "value" VNone ;;
    Ok (if truthy year then Some year else None)
  else Ok None.

(** Lines 67-70 *)
Definition year_of_summary (summary_ws : value) : result value :=
  if truthy summary_ws then
    pd <- (if isinstance_dict summary_ws
           then a <- py_get summary_ws "publication-date" VNone ;;
                Ok (py_or a (VDict []))
           else Ok (VDict [])) ;;
    y <- py_get pd "year" VNone ;;
    v <- py_get (py_or y (VDict [])) "value" VNone ;;
    Ok (py_or v (VStr ""))
  else Ok (VStr "").

Definition extract_year (work summary_ws : value) : result value :=
  from_work <- year_of_work work ;;
  match from_work with
  | Some year => Ok year
  | None => year_of_summary summary_ws
  end.

(** [t == 'doi' or ('doi' in t)] *)
Definition doi_like (t : string) : bool :=
  String.eqb t "doi" || contains "doi" t.

(** Lines 82-85: the DOI candidate computed from [val] *)
Definition normalize_doi (val : string) : result string :=
  let doi := strip val in
  let doi := replace (replace doi "https://doi.org/" "") "http://doi.org/" "" in
  if startswith doi "doi:" then index1 (split_once ":" doi) else Ok doi.

(** One iteration of the loop over the external identifiers; the loop
    variables are [doi] (always a [str]) and [url]. *)
Definition doi_url_step (acc : string * value) (e : value)
  : result (string * value) :=
  let '(doi, url) := acc in
  t0 <- py_get e "external-id-type" VNone ;;
  t <- py_lower (py_or t0 (VStr "")) ;;
  v0 <- py_get e "external-id-value" VNone ;;
  let val := py_or v0 (VStr "") in
  doi' <- (if doi_like t
           then s <- as_str val ;; normalize_doi s
           else Ok doi) ;;
  url' <- (if negb (truthy url)
           then u <- py_get e "external-id-url" VNone ;;
                v <- py_get (py_or u (VDict [])) "value" VNone ;;
                Ok (py_or v (VStr ""))
           else Ok url) ;;
  Ok (doi', url').

Fixpoint doi_url_loop (es : list value) (acc : string * value)
  : result (string * value) :=
  match es with
  | [] => Ok acc
  | e :: rest => acc' <- doi_url_step acc e ;; doi_url_loop rest acc'
  end.

(** [(work.get('url') or {}).get('value') or ''] *)
Definition direct_url (work : value) : result value :=
  u <- py_get work "url" VNone ;;
  v <- py_get (py_or u (VDict [])) "value" VNone ;;
  Ok (py_or v (VStr "")).

Definition extract_doi_and_url (work : value) : result (string * value) :=
  if negb (truthy work) then Ok ("", VStr "")
  else
    a <- py_get work "external-ids" VNone ;;
    let ext := py_or a (VDict []) in
    b <- py_get ext "external-id" (VList []) ;;
    es <- py_iter (py_or b (VList [])) ;;
    acc <- doi_url_loop es ("", VStr "") ;;
    let '(doi, url) := acc in
    url' <- (if negb (truthy url) then direct_url work else Ok url) ;;
    Ok (doi, url').

Definition newline : string := String (ascii_of_nat 10) "".

Definition sanitize_markdown (text : value) : string :=
  match text with
  | VStr s => strip (replace s newline " ")
  | _ => ""
  end.

Fixpoint dict_safe_get_loop (cur : value) (keys : list string) (default : value)
  : value :=
  match keys with
  | [] => if isinstance_dict cur then default else py_or cur default
  | k :: ks =>
      match cur with
      | VDict d =>
          dict_safe_get_loop
            (match dict_lookup d k with Some x => x | None => VDict [] end)
            ks default
      | _ => default
      end
  end.

Definition dict_safe_get (d : value) (keys : list string) (default : value)
  : value :=
  dict_safe_get_loop (if isinstance_dict d then d else VDict []) keys default.

(* ================================================================= *)
(** ** Row assembly (the body of the loop in [main], after the fetch) *)

(** The dict appended to [rows]; its six keys are fixed. *)
Record row : Type := mkRow {
  title : string;
  authors : string;
  journal : string;
  year : value;
  doi : string;
  link : value
}.

(** Line 146 *)
Definition row_title (detailed ws : value) : result string :=
  t <- extract_title detailed ;;
  Ok (sanitize_markdown
        (py_or (py_or t (dict_safe_get ws ["title"; "title"; "value"] (VStr "")))
               (dict_safe_get ws ["title"] (VStr "")))).

(** Lines 147-153 *)
Definition row_authors (detailed ws : value) : result (list value) :=
  authors <- extract_contributors detailed ;;
  match authors with
  | [] =>
      a <- py_get ws "author" VNone ;;
      author_str <- (if truthy a then Ok a
                     else c <- py_get ws "credit-name" VNone ;;
                          Ok (py_or c (VStr ""))) ;;
      if isinstance_str author_str && truthy author_str
      then Ok [author_str] else Ok authors
  | _ :: _ => Ok authors
  end.

(** Line 154 *)
Definition authors_md (authors : list value) : result string :=
  match authors with
  | [] => Ok ""
  | _ :: _ => join ", " authors
  end.

(** Line 156 *)
Definition row_journal (detailed ws : value) : result string :=
  j <- extract_journal detailed ;;
  Ok (sanitize_markdown
        (py_or j (dict_safe_get ws ["journal-title"; "value"] (VStr "")))).

Definition doi_org : string := "https://doi.org/".

(** Line 159 *)
Definition doi_md (doi : string) : string :=
  match doi with
  | "" => ""
  | _ => ("[" ++ doi ++ "](" ++ doi_org ++ doi ++ ")")%string
  end.

(** Lines 160-161 *)
Definition final_link (doi : string) (link : value) : value :=
  if negb (truthy link) && truthy (VStr doi)
  then VStr (doi_org ++ doi) else link.

(** Lines 146-170 *)
Definition assemble_row (detailed ws : value) : result row :=
  t <- row_title detailed ws ;;
  authors <- row_authors detailed ws ;;
  a_md <- authors_md authors ;;
  j <- row_journal detailed ws ;;
  y <- extract_year detailed ws ;;
  dl <- extract_doi_and_url detailed ;;
  let '(doi, link) := dl in
  Ok {| title := match t with "" => "(no title)" | _ => t end;
        authors := a_md;
        journal := j;
        year := y;
        doi := doi_md doi;
        link := final_link doi link |}.

(* ================================================================= *)
(** ** Sorting ([sort_key] and [rows.sort(key=sort_key, reverse=True)]) *)

Definition digit_val (c : ascii) : option Z :=
  let n := N_of_ascii c in
  if ((48 <=? n) && (n <=? 57))%N then Some (Z.of_N n - 48)%Z else None.

(** The digit part of a decimal literal accepted by [int]: digits, with
    single underscores allowed between two digits.  [prev] tells whether
    the previous character was a digit. *)
Fixpoint parse_digits (acc : Z) (prev : bool) (s : string) : option Z :=
  match s with
  | "" => if prev then Some acc else None
  | String c r =>
      match digit_val c with
      | Some d => parse_digits (10 * acc + d)%Z true r
      | None =>
          if Ascii.eqb c "_" && prev then parse_digits acc false r else None
      end
  end.

(** The blanks [int] skips around a numeral: the whitespace of C (9-13 and
    32) and the two further whitespace characters below 256 (133, 160).
    The separators 28-31, which [str.strip] removes, are not among them. *)
Definition is_int_space (c : ascii) : bool :=
  let n := N_of_ascii c in
  ((9 <=? n) && (n <=? 13) || (n =? 32) || (n =? 133) || (n =? 160))%N.

Fixpoint lstrip_with (p : ascii -> bool) (s : string) : string :=
  match s with
  | "" => ""
  | String c r => if p c then lstrip_with p r else s
  end.

Fixpoint rstrip_with (p : ascii -> bool) (s : string) : string :=
  match s with
  | "" => ""
  | String c r =>
      match rstrip_with p r with
      | "" => if p c then "" else String c ""
      | r' => String c r'
      end
  end.

Definition int_strip (s : string) : string :=
  rstrip_with is_int_space (lstrip_with is_int_space s).

Fixpoint count_digits (s : string) : nat :=
  match s with
  | "" => 0
  | String c r =>
      (match digit_val c with Some _ => 1 | None => 0 end) + count_digits r
  end.

(** [sys.int_info.default_max_str_digits]: a numeral of more digits is
    refused with [ValueError] (CPython 3.11 and later, default setting). *)
Definition max_str_digits : nat := 4300.

Definition int_of_digits (s : string) : option Z :=
  match parse_digits 0 false s with
  | Some z => if (count_digits s <=? max_str_digits)%nat then Some z else None
  | None => None
  end.

(** [int(s)] for a string: the blanks around the numeral are skipped, then
    come an optional sign and the digits. *)
Definition int_of_str (s : string) : option Z :=
  match int_strip s with
  | "" => None
  | String c r =>
      if Ascii.eqb c "+" then int_of_digits r
      else if Ascii.eqb c "-" then option_map Z.opp (int_of_digits r)
      else int_of_digits (String c r)
  end.

(** [int(f)] for a float: truncation towards zero *)
Definition int_of_float (f : spec_float) : result Z :=
  match f with
  | S754_zero _ => Ok 0%Z
  | S754_infinity _ => Raise OverflowError
  | S754_nan => Raise ValueError
  | S754_finite s m e =>
      let a := Z.shiftl (Zpos m) e in
      Ok (if s then - a else a)%Z
  end.

(** [int(v)] *)
Definition py_int (v : value) : result Z :=
  match v with
  | VInt z => Ok z
  | VBool b => Ok (if b then 1 else 0)%Z
  | VFloat f => int_of_float f
  | VStr s =>
      match int_of_str s with
      | Some z => Ok z
      | None => Raise ValueError
      end
  | VNone | VList _ | VDict _ => Raise TypeError
  end.

(** Lines 173-177: the bare [except] turns every failure into 0. *)
Definition sort_key (r : row) : Z :=
  match py_int (py_or (year r) (VInt 0)) with
  | Ok z => z
  | Raise _ => 0%Z
  end.

(** [list.sort(key=..., reverse=True)] is a stable sort: it orders by
    descending key and keeps the original order of items with equal keys.
    That result is unique, and is computed here by insertion. *)
Fixpoint insert_row (r : row) (l : list row) : list row :=
  match l with
  | [] => [r]
  | x :: t =>
      if (sort_key x <=? sort_key r)%Z then r :: l else x :: insert_row r t
  end.

Definition sort_rows (rows : list row) : list row :=
  fold_right insert_row [] rows.

(* ================================================================= *)
(** ** The process: network, trace and [main] *)

Inductive event : Type :=
| EFetchRecord
| EFatal (e : exn)
| EFetchWork (put_code : value)
| EWarn (put_code : value) (e : exn)
| ESleep
| EWrite (rows : list row).

(** The outside world: the reply to the record request, and the reply to
    the [n]-th work request (counted from 0), made for a given put-code.
    A reply is the parsed JSON, or the exception [fetch_json] raises. *)
Record world : Type := mkWorld {
  record_reply : result value;
  work_reply : nat -> value -> result value
}.

Record pstate : Type := mkState {
  trace : list event;
  requests : nat
}.

(** Statements of [main]: they may raise, and they extend the trace. *)
Definition prog (A : Type) : Type := pstate -> result A * pstate.

Definition ret {A : Type} (a : A) : prog A := fun st => (Ok a, st).

Definition bindP {A B : Type} (m : prog A) (k : A -> prog B) : prog B :=
  fun st =>
    match m st with
    | (Ok a, st') => k a st'
    | (Raise e, st') => (Raise e, st')
    end.

Notation "x <~ c ;; k" := (bindP c (fun x => k))
  (at level 61, c at next level, right associativity).

Definition lift {A : Type} (r : result A) : prog A := fun st => (r, st).

Definition emit (ev : event) : prog unit :=
  fun st => (Ok tt, mkState (trace st ++ [ev]) (requests st)).

(** [try: fetch_json(work_url) except Exception as e: ...]: the request is
    made once, and its outcome is handed to the caller. *)
Definition fetch_work (w : world) (put_code : value) : prog (result value) :=
  fun st =>
    (Ok (work_reply w (requests st) put_code),
     mkState (trace st ++ [EFetchWork put_code]) (S (requests st))).

(** Lines 125-126 and the iterator of the [for] statement *)
Definition get_groups_list (record : value) : result (list value) :=
  a <- py_get record "activities-summary" (VDict []) ;;
  b <- py_get (py_or a (VDict [])) "works" (VDict []) ;;
  let groups := py_or b (VDict []) in
  c <- py_get groups "group" (VList []) ;;
  py_iter (py_or c (VList [])).

(** Lines 130-136: the first summary of the group and its put-code;
    [None] stands for the two [continue] statements. *)
Definition select_summary (g : value) : result (option (value * value)) :=
  s0 <- py_get g "work-summary" VNone ;;
  let work_summaries := py_or s0 (VList []) in
  if negb (truthy work_summaries) then Ok None
  else
    ws0 <- py_index0 work_summaries ;;
    let ws := py_or ws0 (VDict []) in
    put_code <- py_get ws "put-code" VNone ;;
    match put_code with
    | VNone => Ok None
    | _ => Ok (Some (ws, put_code))
    end.

(** Lines 130-171: one iteration of the loop over the groups.  Each
    [continue] returns [rows] as it is. *)
Definition group_body (w : world) (rows : list row) (g : value)
  : prog (list row) :=
  sel <~ lift (select_summary g) ;;
  match sel with
  | None => ret rows
  | Some (ws, put_code) =>
      reply <~ fetch_work w put_code ;;
      match reply with
      | Raise e => _ <~ emit (EWarn put_code e) ;; ret rows
      | Ok js =>
          let detailed := py_or js (VDict []) in
          r <~ lift (assemble_row detailed ws) ;;
          _ <~ emit ESleep ;;
          ret (rows ++ [r])
      end
  end.

Fixpoint for_groups (w : world) (groups_list : list value) (rows : list row)
  : prog (list row) :=
  match groups_list with
  | [] => ret rows
  | g :: rest => rows' <~ group_body w rows g ;; for_groups w rest rows'
  end.

(** How the process ends: its exit status, the exception that ended it if
    one was left unhandled, and what it did.  [EWrite] carries the rows the
    table is rendered from; the markdown text itself is not modelled. *)
Record outcome : Type := mkOutcome {
  exit_status : Z;
  uncaught : option exn;
  events : list event
}.

Definition after_record (w : world) (record : value) : prog unit :=
  groups_list <~ lift (get_groups_list record) ;;
  rows <~ for_groups w groups_list [] ;;
  emit (EWrite (sort_rows rows)).

Definition main (w : world) : outcome :=
  match record_reply w with
  | Raise e => mkOutcome 1 None [EFetchRecord; EFatal e]
  | Ok record =>
      match after_record w record (mkState [EFetchRecord] 0) with
      | (Ok _, st) => mkOutcome 0 None (trace st)
      | (Raise e, st) => mkOutcome 1 (Some e) (trace st)
      end
  end.


(* ================================================================= *)
(** ** Vocabulary of the statements *)

(** A bare DOI: nothing for lines 82-85 to remove. *)
Definition bare_doi (s : string) : bool :=
  String.eqb (strip s) s
  && negb (contains "https://doi.org/" s)
  && negb (contains "http://doi.org/" s)
  && negb (startswith s "doi:").

(** The value found by following [keys] through nested dicts; [VNone]
    where a key is missing or a level is not a dict. *)
Fixpoint at_path (v : value) (keys : list string) : value :=
  match keys with
  | [] => v
  | k :: ks =>
      match v with
      | VDict d =>
          match dict_lookup d k with
          | Some x => at_path x ks
          | None => VNone
          end
      | _ => VNone
      end
  end.

(** The external identifiers of a detail object, in list order. *)
Definition ext_ids (work : value) : list value :=
  match at_path work ["external-ids"; "external-id"] with
  | VList es => es
  | _ => []
  end.

Definition entry_url (e : value) : value :=
  at_path e ["external-id-url"; "value"].

(** The type of an external identifier, lower-cased; empty when absent. *)
Definition entry_type (e : value) : string :=
  match at_path e ["external-id-type"] with
  | VStr s => lower s
  | _ => ""
  end.

Definition entry_value (e : value) : string :=
  match at_path e ["external-id-value"] with
  | VStr s => s
  | _ => ""
  end.

Definition entry_is_doi (e : value) : bool := doi_like (entry_type e).

(** The link as the specification words it: the URL of the first external
    identifier whose URL is non-empty, else the direct URL field. *)
Definition spec_link (work : value) : value :=
  match find truthy (map entry_url (ext_ids work)) with
  | Some u => u
  | None => py_or (at_path work ["url"; "value"]) (VStr "")
  end.

(** The last external identifier of DOI-like type, in list order. *)
Definition last_doi_entry (es : list value) : option value :=
  find entry_is_doi (rev es).

(** Absent (null, empty, zero) or of the expected kind. *)
Definition absent_or (p : value -> bool) (v : value) : bool :=
  negb (truthy v) || p v.

Definition is_ext_id_list (v : value) (p : value -> bool) : bool :=
  match v with
  | VList es => forallb p es
  | _ => false
  end.

(** An external identifier of the expected shape: an object whose type and
    value are strings and whose URL is an object, each possibly absent. *)
Definition wf_ext_id (e : value) : bool :=
  isinstance_dict e
  && absent_or isinstance_str (at_path e ["external-id-type"])
  && absent_or isinstance_str (at_path e ["external-id-value"])
  && absent_or isinstance_dict (at_path e ["external-id-url"]).

(** A detail object of the expected shape, as far as the DOI and link
    extraction looks at it. *)
Definition wf_work (work : value) : bool :=
  negb (truthy work)
  || (isinstance_dict work
      && absent_or isinstance_dict (at_path work ["external-ids"])
      && absent_or (fun v => is_ext_id_list v wf_ext_id)
                   (at_path work ["external-ids"; "external-id"])
      && absent_or isinstance_dict (at_path work ["url"])).

(** A value lacks what [keys] leads to when some level on the way (the
    value itself, or what a key holds) is absent, or a key is missing;
    the levels passed through are dicts. *)
Fixpoint lacks_path (v : value) (keys : list string) : bool :=
  negb (truthy v)
  || match keys with
     | [] => false
     | k :: ks =>
         match v with
         | VDict d =>
             match dict_lookup d k with
             | Some x => lacks_path x ks
             | None => true
             end
         | _ => false
         end
     end.

Definition key_ge (a b : row) : Prop := (sort_key b <= sort_key a)%Z.

Definition has_key (k : Z) (r : row) : bool := (sort_key r =? k)%Z.

(** A group the loop gets through: it is skipped, or its fetch fails, or
    the row of the fetched work can be assembled. *)
Definition survives (w : world) (g : value) : Prop :=
  match select_summary g with
  | Ok None => True
  | Ok (Some (ws, put_code)) =>
      forall n,
        match work_reply w n put_code with
        | Raise _ => True
        | Ok js => is_ok (assemble_row (py_or js (VDict [])) ws) = true
        end
  | Raise _ => False
  end.

(** A group with a first summary and a put-code whose fetch fails
    whenever it is attempted. *)
Definition fetch_fails (w : world) (g : value) : Prop :=
  exists ws put_code,
    select_summary g = Ok (Some (ws, put_code))
    /\ forall n, is_ok (work_reply w n put_code) = false.

Definition is_write (ev : event) : bool :=
  match ev with EWrite _ => true | _ => false end.

Definition is_warn (ev : event) : bool :=
  match ev with EWarn _ _ => true | _ => false end.

Definition is_sleep (ev : event) : bool :=
  match ev with ESleep => true | _ => false end.

Definition is_fetch_work (ev : event) : bool :=
  match ev with EFetchWork _ => true | _ => false end.

Definition count (p : event -> bool) (evs : list event) : nat :=
  List.length (filter p evs).

(* ================================================================= *)
(** ** Sample inputs *)

Definition title_path : list string := ["title"; "title"; "value"].
Definition journal_path : list string := ["journal-title"; "value"].
Definition year_path : list string := ["publication-date"; "year"; "value"].

(** A work summary as the record lists it. *)
Definition sample_summary : value :=
  VDict [("put-code", VInt 123);
         ("title", VDict [("title", VDict [("value", VStr " Study A")])]);
         ("journal-title", VDict [("value", VStr "Journal X")]);
         ("publication-date", VDict [("year", VDict [("value", VStr "2020")])])].

(** A detailed work with two DOI-like identifiers; only the second
    identifier carries a URL. *)
Definition sample_ext_id_1 : value :=
  VDict [("external-id-type", VStr "DOI");
         ("external-id-value", VStr " https://doi.org/10.1000/old ")].

Definition sample_ext_id_2 : value :=
  VDict [("external-id-type", VStr "doi");
         ("external-id-value", VStr "doi:10.1000/xyz");
         ("external-id-url", VDict [("value", VStr "https://example.org/xyz")])].

Definition sample_work : value :=
  VDict [("title", VDict [("title", VDict [("value", VStr "Study A")])]);
         ("external-ids",
          VDict [("external-id", VList [sample_ext_id_1; sample_ext_id_2])])].

(** A record with two groups. *)
Definition sample_group (put_code : Z) : value :=
  VDict [("work-summary", VList [VDict [("put-code", VInt put_code)]])].

Definition sample_record : value :=
  VDict [("activities-summary",
          VDict [("works",
                  VDict [("group",
                          VList [sample_group 123; sample_group 124])])])].

(** The record is served; the first work request fails, later ones are
    answered with [sample_work]. *)
Definition flaky_world : world :=
  mkWorld (Ok sample_record)
          (fun n _ => match n with O => Raise FetchError | _ => Ok sample_work end).

(** The record is served; every work request fails. *)
Definition dead_world : world :=
  mkWorld (Ok sample_record) (fun _ _ => Raise FetchError).

(** The record request itself fails. *)
Definition dark_world : world :=
  mkWorld (Raise FetchError) (fun _ _ => Ok sample_work).

(** A detailed work whose author name and year carry line breaks and
    surrounding blanks. *)
Definition untidy_work : value :=
  VDict [("title", VDict [("title", VDict [("value", VStr " Study A ")])]);
         ("contributors",
          VDict [("contributor",
                  VList [VDict [("credit-name",
                                 VDict [("value", VStr (" J." ++ newline ++ "Doe "))])]])]);
         ("publication-date",
          VDict [("year", VDict [("value", VStr (" 2020" ++ newline))])])].

(* ================================================================= *)
(** ** Rendering of a table cell (lines 188-190) *)

Definition pipe : ascii := ascii_of_nat 124.
Definition backslash : ascii := ascii_of_nat 92.

(** [s.replace("|", "\\|")], applied to title, authors and venue *)
Definition escape_pipes (s : string) : string :=
  replace s (String pipe "") (String backslash (String pipe "")).

(* ================================================================= *)
(** ** Further vocabulary *)

(** Every [|] of the string comes right after a backslash. *)
Fixpoint pipes_escaped_from (after_backslash : bool) (s : string) : bool :=
  match s with
  | "" => true
  | String c r =>
      (if Ascii.eqb c pipe then after_backslash else true)
      && pipes_escaped_from (Ascii.eqb c backslash) r
  end.

Definition pipes_escaped (s : string) : bool := pipes_escaped_from false s.

Fixpoint count_char (c : ascii) (s : string) : nat :=
  match s with
  | "" => 0
  | String a r => (if Ascii.eqb c a then 1 else 0) + count_char c r
  end.

(** Nothing for [lstrip] to remove. *)
Definition head_not_space (s : string) : Prop :=
  match s with
  | "" => True
  | String c _ => is_space c = false
  end.

(** The contributor entries of a detail object, in list order. *)
Definition contributors_of (work : value) : list value :=
  match at_path work ["contributors"; "contributor"] with
  | VList cs => cs
  | _ => []
  end.

(** The credit names the entries carry, without the absent ones. *)
Definition credit_names (cs : list value) : list value :=
  filter truthy (map (fun c => at_path c ["credit-name"; "value"]) cs).

Definition wf_contributor (c : value) : bool :=
  isinstance_dict c
  && absent_or isinstance_dict (at_path c ["credit-name"]).

Definition wf_contributors (work : value) : bool :=
  negb (truthy work)
  || (isinstance_dict work
      && absent_or isinstance_dict (at_path work ["contributors"])
      && absent_or (fun v => is_ext_id_list v wf_contributor)
                   (at_path work ["contributors"; "contributor"])).

(** The events the loop over the groups can add to the trace. *)
Definition is_loop_event (ev : event) : bool :=
  is_fetch_work ev || is_warn ev || is_sleep ev.

(** What a stretch of the loop has done when it ends in [out], started
    in state [st] with the rows [rows]: it added loop events only, at most
    [n] of them requests, and counted its requests; and when it ends
    normally the earlier rows are still there, one row was added per pause,
    and every request ended in a row or in a warning. *)
Definition loop_effect (st : pstate) (rows : list row) (n : nat)
           (out : result (list row) * pstate) : Prop :=
  exists evs,
    snd out = mkState (trace st ++ evs)
                      (requests st + count is_fetch_work evs)
    /\ forallb is_loop_event evs = true
    /\ (count is_fetch_work evs <= n)%nat
    /\ match fst out with
       | Ok rows' =>
           exists more,
             rows' = rows ++ more
             /\ List.length more = count is_sleep evs
             /\ count is_fetch_work evs
                = (count is_sleep evs + count is_warn evs)%nat
       | Raise _ => True
       end.

(** Two rows, the later year first. *)
Definition row_2020 : row := mkRow "A" "" "" (VStr "2020") "" (VStr "").
Definition row_2019 : row := mkRow "B" "" "" (VStr "2019") "" (VStr "").

(* ================================================================= *)
(** ** Vocabulary of the sort key *)

Fixpoint all_chars (p : ascii -> bool) (s : string) : bool :=
  match s with
  | "" => true
  | String c r => p c && all_chars p r
  end.

(** Made of blanks that [int] skips. *)
Definition all_blank (s : string) : bool := all_chars is_int_space s.

Definition not_int_space (c : ascii) : bool := negb (is_int_space c).

(** The decimal numeral with the digits [ds], most significant first, and
    the number it denotes. *)
Definition digit_char (d : nat) : ascii := ascii_of_nat (48 + d).

Fixpoint numeral (ds : list nat) : string :=
  match ds with
  | [] => ""
  | d :: r => String (digit_char d) (numeral r)
  end.

Definition numeral_step (acc : Z) (d : nat) : Z := (10 * acc + Z.of_nat d)%Z.

Definition numeral_value (ds : list nat) : Z := fold_left numeral_step ds 0%Z.

Definition is_digit (d : nat) : Prop := (d < 10)%nat.

Definition row_of_year (y : value) : row := mkRow "t" "" "" y "" (VStr "").

(* ================================================================= *)
(** ** Vocabulary of the fallback to the summary *)

(** Present, and not an object. *)
Definition present_leaf (v : value) : bool :=
  truthy v && negb (isinstance_dict v).

(** The title a summary offers: the value under title / title / value,
    else a plain value under title, each only when it is present and not
    an object; else the empty string. *)
Definition summary_title (ws : value) : value :=
  if present_leaf (at_path ws title_path) then at_path ws title_path
  else if present_leaf (at_path ws ["title"]) then at_path ws ["title"]
  else VStr "".

(** The venue a summary offers: the value under journal-title / value. *)
Definition summary_journal (ws : value) : value :=
  if present_leaf (at_path ws journal_path) then at_path ws journal_path
  else VStr "".

(** The year a summary offers: the value under publication-date / year /
    value when present, else the empty string. *)
Definition summary_year (ws : value) : value :=
  py_or (at_path ws year_path) (VStr "").

(** The publication date of the summary and its year are objects, or are
    absent. *)
Definition year_nested (ws : value) : bool :=
  absent_or isinstance_dict (at_path ws ["publication-date"])
  && absent_or isinstance_dict (at_path ws ["publication-date"; "year"]).

(** The title object of the detail holds an inner title that is absent
    without being an object (null, an empty string, zero). *)
Definition null_inner_title (detail : value) : bool :=
  match at_path detail ["title"] with
  | VDict d =>
      match dict_lookup d "title" with
      | Some x => negb (truthy x) && negb (isinstance_dict x)
      | None => false
      end
  | _ => false
  end.

(* ================================================================= *)
(** * Properties *)

(* ----------------------------------------------------------------- *)
(** ** Strings *)

Lemma replace_from_absent (old new s : string) :
  contains old s = false -> replace_from old new 0 s = s.
Proof.
  induction s as [|c r IH]; simpl; intros H.
  - destruct old; [discriminate | reflexivity].
  - apply orb_false_iff in H. destruct H as [Hp Hc].
    destruct old as [|o old'].
    + discriminate Hp.
    + rewrite Hp. f_equal. exact (IH Hc).
Qed.

Lemma replace_absent (s old new : string) :
  contains old s = false -> replace s old new = s.
Proof. apply replace_from_absent. Qed.

Lemma startswith_append (p s : string) :
  startswith s p = true -> exists r, s = (p ++ r)%string.
Proof.
  revert s. induction p as [|a p IH]; intros s H.
  - exists s. reflexivity.
  - destruct s as [|b s]; cbn [startswith] in H; [discriminate H|].
    apply andb_true_iff in H. destruct H as [Hab Hp].
    apply Ascii.eqb_eq in Hab. subst b.
    destruct (IH _ Hp) as [r ->]. exists r. reflexivity.
Qed.

(** The [split(':', 1)[1]] of line 85 is guarded by [startswith('doi:')],
    so the normalisation never raises. *)
Lemma normalize_doi_ok (val : string) : exists d, normalize_doi val = Ok d.
Proof.
  unfold normalize_doi.
  set (t := replace _ _ _). clearbody t.
  destruct (startswith t "doi:") eqn:E; [|eauto].
  apply startswith_append in E. destruct E as [r ->].
  exists r. reflexivity.
Qed.


(** C6, as stated, fails: the output of one application of the rule can
    still carry a prefix, which a second application removes. *)
Lemma normalize_doi_not_idempotent :
  ~ (forall s d : string, normalize_doi s = Ok d -> normalize_doi d = Ok d).
Proof.
  intros H.
  specialize (H "doi:doi:10.1000/xyz" "doi:10.1000/xyz" eq_refl).
  vm_compute in H. discriminate H.
Qed.

(** C6 (amended): on a bare DOI, that is a string without surrounding
    whitespace, without an occurrence of [https://doi.org/] or
    [http://doi.org/] and without a leading [doi:], the normalisation of
    lines 82-85 returns the string unchanged. *)
Theorem normalize_doi_bare_unchanged (s : string) :
  bare_doi s = true -> normalize_doi s = Ok s.
Proof.
  unfold bare_doi. intros H.
  repeat (apply andb_true_iff in H; destruct H as [H ?]).
  apply String.eqb_eq in H.
  repeat match goal with
         | X : negb _ = true |- _ => apply negb_true_iff in X
         end.
  unfold normalize_doi. rewrite H.
  rewrite (replace_absent s "https://doi.org/" "") by assumption.
  rewrite (replace_absent s "http://doi.org/" "") by assumption.
  match goal with X : startswith s _ = false |- _ => rewrite X end.
  reflexivity.
Qed.

Lemma normalize_doi_bare_unchanged_witness :
  bare_doi "10.1000/xyz" = true /\ normalize_doi "10.1000/xyz" = Ok "10.1000/xyz".
Proof.
  split; [reflexivity | apply normalize_doi_bare_unchanged; reflexivity].
Defined.

(* ----------------------------------------------------------------- *)
(** ** Sorting *)

Lemma insert_row_perm (r : row) (l : list row) :
  Permutation (r :: l) (insert_row r l).
Proof.
  induction l as [|x t IH]; simpl.
  - apply Permutation_refl.
  - destruct (sort_key x <=? sort_key r)%Z.
    + apply Permutation_refl.
    + eapply perm_trans; [apply perm_swap | apply perm_skip, IH].
Qed.

Lemma sort_rows_perm (rows : list row) : Permutation rows (sort_rows rows).
Proof.
  induction rows as [|r t IH]; simpl.
  - apply perm_nil.
  - eapply perm_trans; [apply perm_skip, IH | apply insert_row_perm].
Qed.

Lemma insert_row_sorted (r : row) (l : list row) :
  StronglySorted key_ge l -> StronglySorted key_ge (insert_row r l).
Proof.
  induction 1 as [|x t Hs IH Hx]; simpl.
  - repeat constructor.
  - destruct (sort_key x <=? sort_key r)%Z eqn:E.
    + apply Z.leb_le in E. constructor.
      * constructor; assumption.
      * constructor; [exact E|].
        eapply Forall_impl; [|exact Hx].
        unfold key_ge. intros; lia.
    + apply Z.leb_gt in E. constructor; [exact IH|].
      eapply Permutation_Forall; [apply insert_row_perm|].
      constructor; [unfold key_ge; lia | exact Hx].
Qed.

Lemma sort_rows_sorted (rows : list row) :
  StronglySorted key_ge (sort_rows rows).
Proof.
  induction rows as [|r t IH]; simpl.
  - constructor.
  - apply insert_row_sorted, IH.
Qed.

Lemma insert_row_filter (k : Z) (r : row) (l : list row) :
  filter (has_key k) (insert_row r l) = filter (has_key k) (r :: l).
Proof.
  induction l as [|x t IH]; [reflexivity|].
  cbn [insert_row].
  destruct (sort_key x <=? sort_key r)%Z eqn:E; [reflexivity|].
  apply Z.leb_gt in E.
  cbn [filter] in *. rewrite IH.
  unfold has_key.
  destruct (sort_key r =? k)%Z eqn:Er; [|reflexivity].
  apply Z.eqb_eq in Er.
  destruct (sort_key x =? k)%Z eqn:Ex; [|reflexivity].
  apply Z.eqb_eq in Ex. lia.
Qed.

Lemma sort_rows_stable (k : Z) (rows : list row) :
  filter (has_key k) (sort_rows rows) = filter (has_key k) rows.
Proof.
  induction rows as [|r t IH]; [reflexivity|].
  cbn [sort_rows fold_right]. rewrite insert_row_filter.
  cbn [filter]. fold (sort_rows t). rewrite IH. reflexivity.
Qed.

Lemma sort_key_parsed (r : row) :
  sort_key r = match py_int (year r) with Ok z => z | Raise _ => 0%Z end.
Proof.
  unfold sort_key, py_or.
  destruct (year r) as [|[|]|z|f|s|l|d]; try reflexivity.
  - simpl. destruct (Z.eqb_spec z 0); simpl; [subst|]; reflexivity.
  - destruct f; reflexivity.
  - destruct s; reflexivity.
  - destruct l; reflexivity.
  - destruct d; reflexivity.
Qed.

Lemma digit_val_nonneg (c : ascii) (d : Z) :
  digit_val c = Some d -> (0 <= d)%Z.
Proof.
  unfold digit_val.
  destruct ((48 <=? N_of_ascii c) && (N_of_ascii c <=? 57))%N eqn:E;
    intros H; inversion H; subst.
  apply andb_true_iff in E. destruct E as [E _].
  apply N.leb_le in E. lia.
Qed.

Lemma parse_digits_nonneg (s : string) :
  forall (acc : Z) (prev : bool) (z : Z),
    (0 <= acc)%Z -> parse_digits acc prev s = Some z -> (0 <= z)%Z.
Proof.
  induction s as [|c r IH]; intros acc prev z Hacc H;
    cbn [parse_digits] in H.
  - destruct prev; inversion H; subst; exact Hacc.
  - destruct (digit_val c) as [d|] eqn:D.
    + apply digit_val_nonneg in D. eapply IH; [|exact H]. lia.
    + destruct (Ascii.eqb c "_" && prev); [|discriminate H].
      eapply IH; eassumption.
Qed.

Lemma int_of_digits_nonneg (s : string) (z : Z) :
  int_of_digits s = Some z -> (0 <= z)%Z.
Proof.
  unfold int_of_digits.
  destruct (parse_digits 0 false s) as [y|] eqn:P; [|discriminate].
  destruct (count_digits s <=? max_str_digits)%nat; [|discriminate].
  intros H. inversion H; subst.
  eapply parse_digits_nonneg; [|exact P]. lia.
Qed.

(** A year written without a minus sign never sorts below the key 0 of
    the rows without a readable year. *)
Lemma sort_key_unsigned_nonneg (r : row) (s : string) :
  year r = VStr s -> startswith (int_strip s) "-" = false ->
  (0 <= sort_key r)%Z.
Proof.
  intros Hy Hs. rewrite sort_key_parsed, Hy. cbn [py_int].
  unfold int_of_str.
  destruct (int_strip s) as [|c t]; [simpl; lia|].
  assert (Hc : Ascii.eqb c "-" = false).
  { rewrite Ascii.eqb_sym. cbn [startswith] in Hs.
    destruct (Ascii.eqb "-" c); [|reflexivity].
    destruct t; discriminate Hs. }
  rewrite Hc.
  destruct (Ascii.eqb c "+").
  - destruct (int_of_digits t) as [z|] eqn:P; [|lia].
    apply int_of_digits_nonneg in P; lia.
  - destruct (int_of_digits (String c t)) as [z|] eqn:P; [|lia].
    apply int_of_digits_nonneg in P; lia.
Qed.

(** *** Blanks around a numeral *)

Lemma lstrip_with_blanks (p : ascii -> bool) (pre s : string) :
  all_chars p pre = true ->
  lstrip_with p (pre ++ s) = lstrip_with p s.
Proof.
  induction pre as [|c r IH]; [reflexivity|].
  cbn [all_chars String.append lstrip_with]. intros H.
  apply andb_true_iff in H. destruct H as [Hc Hr].
  rewrite Hc. apply IH, Hr.
Qed.

Lemma rstrip_with_all (p : ascii -> bool) (post : string) :
  all_chars p post = true -> rstrip_with p post = "".
Proof.
  induction post as [|c r IH]; [reflexivity|].
  cbn [all_chars rstrip_with]. intros H.
  apply andb_true_iff in H. destruct H as [Hc Hr].
  rewrite (IH Hr), Hc. reflexivity.
Qed.

Lemma rstrip_with_blanks (p : ascii -> bool) (s post : string) :
  all_chars p post = true ->
  rstrip_with p (s ++ post) = rstrip_with p s.
Proof.
  intros H. induction s as [|c r IH].
  - cbn [String.append]. rewrite (rstrip_with_all _ _ H). reflexivity.
  - cbn [String.append rstrip_with]. rewrite IH. reflexivity.
Qed.

Lemma rstrip_with_none (p : ascii -> bool) (s : string) :
  all_chars (fun c => negb (p c)) s = true -> rstrip_with p s = s.
Proof.
  induction s as [|c r IH]; [reflexivity|].
  cbn [all_chars rstrip_with]. intros H.
  apply andb_true_iff in H. destruct H as [Hc Hr].
  apply negb_true_iff in Hc. rewrite (IH Hr), Hc.
  destruct r; reflexivity.
Qed.

(** Blanks around a text without blanks are what [int] strips. *)
Lemma int_strip_blanks (pre post : string) (c : ascii) (r : string) :
  all_blank pre = true -> all_blank post = true ->
  all_chars not_int_space (String c r) = true ->
  int_strip (pre ++ String c r ++ post) = String c r.
Proof.
  intros Hpre Hpost Hx. unfold int_strip, all_blank in *.
  rewrite (lstrip_with_blanks _ _ _ Hpre).
  pose proof Hx as Hx'. cbn [all_chars] in Hx'.
  apply andb_true_iff in Hx'. destruct Hx' as [Hc _].
  apply negb_true_iff in Hc.
  cbn [String.append lstrip_with]. rewrite Hc.
  change (String c (r ++ post)) with (String c r ++ post)%string.
  rewrite (rstrip_with_blanks _ _ _ Hpost).
  apply rstrip_with_none. exact Hx.
Qed.

(** *** Numerals *)

Lemma digit_char_facts (d : nat) :
  is_digit d ->
  digit_val (digit_char d) = Some (Z.of_nat d)
  /\ is_int_space (digit_char d) = false
  /\ Ascii.eqb (digit_char d) "+" = false
  /\ Ascii.eqb (digit_char d) "-" = false.
Proof.
  unfold is_digit. intros H.
  do 10 (destruct d as [|d]; [repeat split|]). lia.
Qed.

Lemma parse_numeral (ds : list nat) :
  Forall is_digit ds ->
  forall acc prev,
    ds <> [] \/ prev = true ->
    parse_digits acc prev (numeral ds) = Some (fold_left numeral_step ds acc).
Proof.
  induction 1 as [|d r Hd _ IH]; intros acc prev Hne.
  - destruct Hne as [Hne | ->]; [congruence | reflexivity].
  - cbn [numeral parse_digits fold_left].
    destruct (digit_char_facts d Hd) as (Hv & _). rewrite Hv.
    apply IH. right. reflexivity.
Qed.

Lemma count_numeral (ds : list nat) :
  Forall is_digit ds -> count_digits (numeral ds) = List.length ds.
Proof.
  induction 1 as [|d r Hd _ IH]; [reflexivity|].
  cbn [numeral count_digits List.length].
  destruct (digit_char_facts d Hd) as (Hv & _). rewrite Hv, IH. reflexivity.
Qed.

Lemma numeral_no_blank (ds : list nat) :
  Forall is_digit ds -> all_chars not_int_space (numeral ds) = true.
Proof.
  induction 1 as [|d r Hd _ IH]; [reflexivity|].
  cbn [numeral all_chars]. unfold not_int_space at 1.
  destruct (digit_char_facts d Hd) as (_ & Hs & _). rewrite Hs, IH.
  reflexivity.
Qed.

Lemma int_of_digits_numeral (ds : list nat) :
  ds <> [] -> Forall is_digit ds ->
  (List.length ds <= max_str_digits)%nat ->
  int_of_digits (numeral ds) = Some (numeral_value ds).
Proof.
  intros Hne Hd Hlen. unfold int_of_digits.
  rewrite (parse_numeral ds Hd 0%Z false (or_introl Hne)).
  rewrite (count_numeral ds Hd).
  apply Nat.leb_le in Hlen. rewrite Hlen. reflexivity.
Qed.

Lemma int_of_str_numeral (pre post : string) (ds : list nat) :
  all_blank pre = true -> all_blank post = true ->
  ds <> [] -> Forall is_digit ds ->
  (List.length ds <= max_str_digits)%nat ->
  int_of_str (pre ++ numeral ds ++ post) = Some (numeral_value ds)
  /\ int_of_str (pre ++ String "-" (numeral ds) ++ post)
     = Some (- numeral_value ds)%Z.
Proof.
  intros Hpre Hpost Hne Hd Hlen.
  pose proof (int_of_digits_numeral ds Hne Hd Hlen) as Hv.
  pose proof (numeral_no_blank ds Hd) as Hnb.
  split; unfold int_of_str.
  - destruct ds as [|d r]; [congruence|].
    cbn [numeral] in *.
    rewrite (int_strip_blanks _ _ _ _ Hpre Hpost Hnb).
    inversion Hd as [|? ? Hd0 _]; subst.
    destruct (digit_char_facts d Hd0) as (_ & _ & Hp & Hm).
    rewrite Hp, Hm. exact Hv.
  - rewrite (int_strip_blanks pre post "-" (numeral ds) Hpre Hpost).
    + cbn. rewrite Hv. reflexivity.
    + cbn [all_chars]. rewrite Hnb. reflexivity.
Qed.

(** C4, as stated, fails: the key 0 of a row without a year is not the
    lowest; a year that reads as a negative number sorts below it. *)
Lemma unreadable_year_not_lowest :
  ~ (forall r r' : row,
        year r' = VStr "" -> (sort_key r' <= sort_key r)%Z).
Proof.
  intros H.
  specialize (H (row_of_year (VStr "-5")) (row_of_year (VStr "")) eq_refl).
  vm_compute in H. apply H. reflexivity.
Qed.

(** C4 (amended): the rendered order is the assembled rows sorted by
    descending [sort_key]: a rearrangement of the rows, in which keys never
    increase, and in which the rows of any one key keep their order of
    assembly (stability).  The key is the year read as an integer: an
    integer year is its own key, and a year written as a decimal numeral,
    with or without a minus sign and with blanks around it, has the number
    it denotes as key.  A year that cannot be read, the empty year
    included, has key 0.  The key 0 is the lowest among the rows whose year
    is written without a minus sign; a year that reads as a negative
    number sorts below it. *)
Theorem rows_sorted_by_year_descending (rows : list row) :
  Permutation rows (sort_rows rows)
  /\ StronglySorted key_ge (sort_rows rows)
  /\ (forall k, filter (has_key k) (sort_rows rows) = filter (has_key k) rows)
  /\ (forall r,
        sort_key r = match py_int (year r) with Ok z => z | Raise _ => 0%Z end)
  /\ (forall r z, year r = VInt z -> sort_key r = z)
  /\ (forall r pre ds post,
        all_blank pre = true -> all_blank post = true ->
        ds <> [] -> Forall is_digit ds ->
        (List.length ds <= max_str_digits)%nat ->
        (year r = VStr (pre ++ numeral ds ++ post) ->
         sort_key r = numeral_value ds)
        /\ (year r = VStr (pre ++ String "-" (numeral ds) ++ post) ->
            sort_key r = (- numeral_value ds)%Z))
  /\ py_int (VStr "") = Raise ValueError
  /\ (forall r s,
        year r = VStr s -> startswith (int_strip s) "-" = false ->
        (0 <= sort_key r)%Z).
Proof.
  split; [apply sort_rows_perm|].
  split; [apply sort_rows_sorted|].
  split; [intros k; apply sort_rows_stable|].
  split; [apply sort_key_parsed|].
  split; [intros r z H; rewrite sort_key_parsed, H; reflexivity|].
  split.
  { intros r pre ds post Hpre Hpost Hne Hd Hlen.
    destruct (int_of_str_numeral pre post ds Hpre Hpost Hne Hd Hlen)
      as [Hplain Hminus].
    split; intros Hy; rewrite sort_key_parsed, Hy; cbn [py_int];
      [rewrite Hplain | rewrite Hminus]; reflexivity. }
  split; [reflexivity|].
  intros r s. apply sort_key_unsigned_nonneg.
Qed.

Lemma rows_sorted_by_year_descending_witness :
  sort_key (row_of_year (VStr (" " ++ numeral [2; 0; 2; 0] ++ newline)))
  = 2020%Z
  /\ sort_key (row_of_year (VStr (" " ++ String "-" (numeral [5]) ++ "")))
     = (-5)%Z
  /\ (0 <= sort_key (row_of_year (VStr "n.d.")))%Z.
Proof.
  destruct (rows_sorted_by_year_descending []) as (_ & _ & _ & _ & _ & Hnum & _ & Hlow).
  split; [|split].
  - apply (Hnum (row_of_year (VStr (" " ++ numeral [2; 0; 2; 0] ++ newline)))
                " " [2; 0; 2; 0] newline);
      try reflexivity; try discriminate.
    + repeat constructor.
    + unfold max_str_digits. cbn. lia.
  - apply (Hnum (row_of_year (VStr (" " ++ String "-" (numeral [5]) ++ "")))
                " " [5] "");
      try reflexivity; try discriminate.
    + repeat constructor.
    + unfold max_str_digits. cbn. lia.
  - apply (Hlow (row_of_year (VStr "n.d.")) "n.d."); reflexivity.
Defined.

(* ----------------------------------------------------------------- *)
(** ** The error monad *)

Lemma bind_ok {A B : Type} (c : result A) (k : A -> result B) (b : B) :
  bind c k = Ok b -> exists a, c = Ok a /\ k a = Ok b.
Proof.
  destruct c as [a|e]; simpl; intros H; [eauto | discriminate H].
Qed.

Ltac inv_bind H x Hx :=
  apply bind_ok in H; destruct H as (x & Hx & H).

Lemma py_get_dict (v : value) (k : string) (dflt x : value) :
  py_get v k dflt = Ok x -> exists d, v = VDict d.
Proof.
  destruct v; simpl; intros H; try discriminate H. eauto.
Qed.

Lemma py_get_at_path (v : value) (k : string) (x : value) :
  py_get v k VNone = Ok x -> x = at_path v [k].
Proof.
  destruct v; simpl; intros H; try discriminate H.
  destruct (dict_lookup d k); congruence.
Qed.

Lemma at_path_absent (v : value) (k : string) (ks : list string) :
  truthy v = false -> at_path v (k :: ks) = VNone.
Proof.
  destruct v as [| | | | |l|d]; try reflexivity.
  destruct d; [reflexivity | discriminate].
Qed.

(** The idiom [(v.get(k1) or {}).get(k2)] reads the path [k1, k2]. *)
Lemma get_or_get (v : value) (k1 k2 : string) (a x : value) :
  py_get v k1 VNone = Ok a ->
  py_get (py_or a (VDict [])) k2 VNone = Ok x ->
  x = at_path v [k1; k2].
Proof.
  intros Ha Hx.
  destruct (py_get_dict _ _ _ _ Ha) as [d ->].
  simpl in Ha. cbn [at_path].
  unfold py_or in Hx.
  destruct (dict_lookup d k1) as [a'|]; inversion Ha; subst a; clear Ha.
  - destruct (truthy a') eqn:T.
    + destruct (py_get_dict _ _ _ _ Hx) as [d' ->].
      apply py_get_at_path in Hx. exact Hx.
    + simpl in Hx. inversion Hx.
      symmetry. exact (at_path_absent a' k2 [] T).
  - simpl in Hx. congruence.
Qed.

(* ----------------------------------------------------------------- *)
(** ** DOI and link extraction *)

(** Case analysis of a value down to what [truthy] looks at. *)
Ltac case_value v :=
  destruct v as [|[|]|[|?|?]|[?|?| |? ? ?]|[|? ?]|[|? ?]|[|? ?]].

Lemma lower_or_empty (t0 : value) (t : string) :
  py_lower (py_or t0 (VStr "")) = Ok t ->
  t = match t0 with VStr s => lower s | _ => "" end.
Proof.
  case_value t0; cbn; intros H; inversion H; reflexivity.
Qed.

Lemma as_str_or_empty (v0 : value) (s : string) :
  as_str (py_or v0 (VStr "")) = Ok s ->
  s = match v0 with VStr s => s | _ => "" end.
Proof.
  case_value v0; cbn; intros H; inversion H; reflexivity.
Qed.

Lemma doi_url_step_spec (doi doi' : string) (url url' e : value) :
  doi_url_step (doi, url) e = Ok (doi', url') ->
  url' = (if truthy url then url else py_or (entry_url e) (VStr ""))
  /\ (if entry_is_doi e
      then normalize_doi (entry_value e) = Ok doi'
      else doi' = doi).
Proof.
  unfold doi_url_step. intros H.
  inv_bind H t0 Ht0. inv_bind H t Ht. inv_bind H v0 Hv0.
  inv_bind H d1 Hd. inv_bind H u1 Hu.
  inversion H; subst d1 u1; clear H.
  apply py_get_at_path in Ht0. apply py_get_at_path in Hv0.
  apply lower_or_empty in Ht.
  split.
  - destruct (truthy url); simpl in Hu.
    + congruence.
    + inv_bind Hu u Hu1. inv_bind Hu v Hv.
      rewrite (get_or_get _ _ _ _ _ Hu1 Hv) in Hu.
      unfold entry_url. congruence.
  - unfold entry_is_doi, entry_type, entry_value.
    rewrite <- Ht0, <- Ht, <- Hv0.
    destruct (doi_like t).
    + inv_bind Hd s Hs. apply as_str_or_empty in Hs.
      rewrite <- Hs. exact Hd.
    + congruence.
Qed.

Lemma find_app {A : Type} (f : A -> bool) (l l' : list A) :
  find f (l ++ l') = match find f l with
                     | Some x => Some x
                     | None => find f l'
                     end.
Proof.
  induction l as [|x l IH]; simpl; [reflexivity|].
  destruct (f x); [reflexivity | exact IH].
Qed.

Lemma doi_url_loop_url (es : list value) :
  forall (doi doi' : string) (url url' : value),
    doi_url_loop es (doi, url) = Ok (doi', url') ->
    url = VStr "" \/ truthy url = true ->
    url' = (if truthy url then url
            else match find truthy (map entry_url es) with
                 | Some u => u
                 | None => VStr ""
                 end).
Proof.
  induction es as [|e rest IH]; intros doi doi' url url' H Hurl.
  - simpl in H. inversion H; subst.
    destruct Hurl as [-> | ->]; reflexivity.
  - cbn [doi_url_loop] in H. inv_bind H acc Hstep.
    destruct acc as [doi1 url1].
    apply doi_url_step_spec in Hstep. destruct Hstep as [Hu _].
    cbn [map find].
    destruct (truthy url) eqn:T.
    + subst url1. rewrite (IH _ _ _ _ H) by (right; exact T).
      rewrite T. reflexivity.
    + unfold py_or in Hu.
      destruct (truthy (entry_url e)) eqn:Te; subst url1.
      * rewrite (IH _ _ _ _ H) by (right; exact Te).
        rewrite Te. reflexivity.
      * rewrite (IH _ _ _ _ H) by (left; reflexivity). reflexivity.
Qed.

Lemma doi_url_loop_doi (es : list value) :
  forall (doi doi' : string) (url url' : value),
    doi_url_loop es (doi, url) = Ok (doi', url') ->
    match last_doi_entry es with
    | Some e => normalize_doi (entry_value e) = Ok doi'
    | None => doi' = doi
    end.
Proof.
  unfold last_doi_entry.
  induction es as [|e rest IH]; intros doi doi' url url' H.
  - simpl in H. inversion H; reflexivity.
  - cbn [doi_url_loop] in H. inv_bind H acc Hstep.
    destruct acc as [doi1 url1].
    apply doi_url_step_spec in Hstep. destruct Hstep as [_ Hd].
    specialize (IH _ _ _ _ H).
    cbn [rev]. rewrite find_app.
    destruct (find entry_is_doi (rev rest)); [exact IH|].
    cbn [find]. subst doi'.
    destruct (entry_is_doi e); assumption.
Qed.

(** A string met where an external identifier is expected stops the loop
    with an exception. *)
Lemma doi_url_loop_str (s : string) (rest : list value) (acc : string * value) :
  doi_url_loop (VStr s :: rest) acc = Raise AttributeError.
Proof. destruct acc. reflexivity. Qed.

Lemma ext_ids_iterated (work a b : value) (es : list value) :
  py_get work "external-ids" VNone = Ok a ->
  py_get (py_or a (VDict [])) "external-id" (VList []) = Ok b ->
  py_iter (py_or b (VList [])) = Ok es ->
  es = ext_ids work \/ exists s rest, es = VStr s :: rest.
Proof.
  intros Ha Hb Hes.
  destruct (py_get_dict _ _ _ _ Ha) as [d ->].
  unfold ext_ids. cbn [at_path]. simpl in Ha.
  destruct (dict_lookup d "external-ids") as [a'|];
    inversion Ha; subst a; clear Ha.
  - unfold py_or in Hb. destruct (truthy a') eqn:T.
    + destruct (py_get_dict _ _ _ _ Hb) as [d' ->].
      simpl in Hb.
      destruct (dict_lookup d' "external-id") as [x|];
        inversion Hb; subst b; clear Hb.
      * case_value x; cbn in Hes; inversion Hes; subst; auto.
        -- right. eauto.
        -- right. destruct p as [k v]. simpl. eauto.
      * simpl in Hes. inversion Hes. left. reflexivity.
    + simpl in Hb. inversion Hb; subst b. simpl in Hes. inversion Hes.
      left. change (match a' with
                    | VDict d0 =>
                        match dict_lookup d0 "external-id" with
                        | Some x => x
                        | None => VNone
                        end
                    | _ => VNone
                    end) with (at_path a' ["external-id"]).
      rewrite (at_path_absent a' _ [] T). reflexivity.
  - simpl in Hb. inversion Hb; subst b. simpl in Hes. inversion Hes.
    left. reflexivity.
Qed.

Lemma direct_url_spec (work v : value) :
  direct_url work = Ok v -> v = py_or (at_path work ["url"; "value"]) (VStr "").
Proof.
  unfold direct_url. intros H.
  inv_bind H u Hu. inv_bind H x Hx.
  rewrite (get_or_get _ _ _ _ _ Hu Hx) in H. congruence.
Qed.

(** What [extract_doi_and_url] returns, whenever it returns. *)
Lemma extract_doi_and_url_spec (work : value) (doi : string) (url : value) :
  extract_doi_and_url work = Ok (doi, url) ->
  url = spec_link work
  /\ match last_doi_entry (ext_ids work) with
     | Some e => normalize_doi (entry_value e) = Ok doi
     | None => doi = ""
     end.
Proof.
  unfold extract_doi_and_url, spec_link.
  destruct (truthy work) eqn:T; cbn [negb]; intros H.
  - inv_bind H a Ha. inv_bind H b Hb. inv_bind H es Hes.
    inv_bind H acc Hloop. destruct acc as [doi1 url1].
    inv_bind H u Hu. inversion H; subst doi1 u; clear H.
    destruct (ext_ids_iterated _ _ _ _ Ha Hb Hes) as [-> | (s & rest & ->)].
    + split.
      * pose proof (doi_url_loop_url _ _ _ _ _ Hloop (or_introl eq_refl)) as Hu1.
        cbn [truthy] in Hu1.
        destruct (find truthy (map entry_url (ext_ids work))) as [x|] eqn:F.
        -- apply find_some in F. destruct F as [_ Tx].
           subst url1. rewrite Tx in Hu. simpl in Hu. congruence.
        -- subst url1. simpl in Hu. apply direct_url_spec. exact Hu.
      * pose proof (doi_url_loop_doi _ _ _ _ _ Hloop) as Hd.
        destruct (last_doi_entry (ext_ids work)); [exact Hd | congruence].
    + rewrite doi_url_loop_str in Hloop. discriminate Hloop.
  - inversion H; subst. unfold ext_ids.
    rewrite !at_path_absent by exact T. split; reflexivity.
Qed.

Lemma py_get_dict_ok (d : list (string * value)) (k : string) :
  py_get (VDict d) k VNone = Ok (at_path (VDict d) [k]).
Proof.
  simpl. destruct (dict_lookup d k); reflexivity.
Qed.

Lemma absent_or_str (v : value) :
  absent_or isinstance_str v = true -> exists s, py_or v (VStr "") = VStr s.
Proof.
  unfold absent_or, py_or. destruct (truthy v); simpl; intros H; [|eauto].
  destruct v; try discriminate H. eauto.
Qed.

Lemma absent_or_dict (v : value) :
  absent_or isinstance_dict v = true -> exists d, py_or v (VDict []) = VDict d.
Proof.
  unfold absent_or, py_or. destruct (truthy v); simpl; intros H; [|eauto].
  destruct v; try discriminate H. eauto.
Qed.

Lemma doi_url_step_total (e : value) (acc : string * value) :
  wf_ext_id e = true -> exists acc', doi_url_step acc e = Ok acc'.
Proof.
  unfold wf_ext_id. intros H.
  repeat (apply andb_true_iff in H; destruct H as [H ?]).
  destruct e as [| | | | | |d]; try discriminate H.
  destruct acc as [doi url]. unfold doi_url_step.
  rewrite !py_get_dict_ok. cbn [bind].
  destruct (absent_or_str _ H2) as [t ->]. cbn [py_lower bind].
  destruct (absent_or_str _ H1) as [v ->]. cbn [as_str bind].
  destruct (absent_or_dict _ H0) as [u ->]. rewrite py_get_dict_ok.
  cbn [bind].
  destruct (normalize_doi_ok v) as [d' Hn]. rewrite Hn.
  destruct (doi_like (lower t)), (truthy url); cbn [negb bind]; eauto.
Qed.

Lemma doi_url_loop_total (es : list value) :
  forallb wf_ext_id es = true ->
  forall acc, exists acc', doi_url_loop es acc = Ok acc'.
Proof.
  induction es as [|e rest IH]; cbn [forallb doi_url_loop]; intros H acc.
  - eauto.
  - apply andb_true_iff in H. destruct H as [He Hrest].
    destruct (doi_url_step_total e acc He) as [acc1 ->]. cbn [bind].
    apply IH. exact Hrest.
Qed.

Lemma direct_url_total (d : list (string * value)) :
  absent_or isinstance_dict (at_path (VDict d) ["url"]) = true ->
  exists v, direct_url (VDict d) = Ok v.
Proof.
  intros H. unfold direct_url. rewrite py_get_dict_ok. cbn [bind].
  destruct (absent_or_dict _ H) as [u ->]. rewrite py_get_dict_ok.
  cbn [bind]. eauto.
Qed.

(** On a detail object of the expected shape the extraction returns. *)
Lemma extract_doi_and_url_total (work : value) :
  wf_work work = true -> is_ok (extract_doi_and_url work) = true.
Proof.
  unfold wf_work, extract_doi_and_url.
  destruct (truthy work) eqn:T; cbn [negb orb]; intros H; [|reflexivity].
  repeat (apply andb_true_iff in H; destruct H as [H ?]).
  destruct work as [| | | | | |d]; try discriminate H.
  rewrite py_get_dict_ok. cbn [bind].
  destruct (absent_or_dict _ H2) as [x Hx].
  assert (Hes : exists es,
             (b <- py_get (py_or (at_path (VDict d) ["external-ids"]) (VDict []))
                    "external-id" (VList []) ;;
              py_iter (py_or b (VList []))) = Ok es
             /\ forallb wf_ext_id es = true).
  { rewrite Hx. cbn [at_path] in *.
    destruct (dict_lookup d "external-ids") as [a|].
    - cbn [at_path] in Hx.
      unfold py_or in Hx. destruct (truthy a) eqn:Ta.
      + subst a. cbn [py_get] in *.
        destruct (dict_lookup x "external-id") as [b|]; cbn [bind].
        * unfold absent_or in H1. unfold py_or.
          destruct (truthy b); cbn [negb orb] in H1.
          -- destruct b; try discriminate H1. simpl. eauto.
          -- simpl. eauto.
        * simpl. eauto.
      + inversion Hx; subst x. simpl. eauto.
    - inversion Hx; subst x. simpl. eauto. }
  destruct Hes as (es & Hes & Hwf).
  destruct (py_get (py_or (at_path (VDict d) ["external-ids"]) (VDict []))
              "external-id" (VList [])) as [b|]; [|discriminate Hes].
  cbn [bind] in *. rewrite Hes. cbn [bind].
  destruct (doi_url_loop_total es Hwf ("", VStr "")) as [[doi url] ->].
  cbn [bind].
  destruct (truthy url); cbn [negb bind]; [reflexivity|].
  destruct (direct_url_total d H0) as [v ->]. reflexivity.
Qed.

(* ----------------------------------------------------------------- *)
(** ** Fallback to the summary *)

(** Case analysis along a fixed path of keys: split on what each lookup
    finds, and on the kind and truth value of what it holds. *)
Ltac split_lookup d k :=
  let E := fresh "E" in
  destruct (dict_lookup d k) eqn:E; rewrite ?E in *.

Ltac chain_simpl :=
  cbv beta iota in *;
  unfold py_or, dict_safe_get in *;
  cbn [bind py_get truthy negb orb andb Z.eqb at_path lacks_path
       isinstance_dict isinstance_str dict_safe_get_loop] in *;
  change (dict_lookup [] "title") with (@None value) in *;
  change (dict_lookup [] "value") with (@None value) in *;
  change (dict_lookup [] "journal-title") with (@None value) in *;
  change (dict_lookup [] "publication-date") with (@None value) in *;
  change (dict_lookup [] "year") with (@None value) in *.

Ltac split_var x := is_var x; destruct x.

Ltac chain_step :=
  match goal with
  | H : true = false |- _ => discriminate H
  | H : false = true |- _ => discriminate H
  | H : Raise _ = Ok _ |- _ => discriminate H
  | H : Some _ = None |- _ => discriminate H
  | H : None = Some _ |- _ => discriminate H
  | H : dict_lookup [] _ = Some _ |- _ => discriminate H
  | H : Some _ = Some _ |- _ => inversion H; clear H; subst
  | H : context [match dict_lookup ?d ?k with Some _ => _ | None => _ end]
    |- _ => split_lookup d k
  | |- context [match dict_lookup ?d ?k with Some _ => _ | None => _ end] =>
      split_lookup d k
  | H : context [truthy ?v] |- _ => split_var v
  | |- context [truthy ?v] => split_var v
  | H : context [match ?v with VNone => _ | VBool _ => _ | VInt _ => _
                 | VFloat _ => _ | VStr _ => _ | VList _ => _ | VDict _ => _
                 end] |- _ => split_var v
  | |- context [match ?v with VNone => _ | VBool _ => _ | VInt _ => _
                | VFloat _ => _ | VStr _ => _ | VList _ => _ | VDict _ => _
                end] => split_var v
  | H : context [if ?b then _ else _] |- _ => split_var b
  | |- context [if ?b then _ else _] => split_var b
  | H : context [negb ?b] |- _ => split_var b
  | |- context [negb ?b] => split_var b
  | H : context [Z.eqb ?z _] |- _ => split_var z
  | |- context [Z.eqb ?z _] => split_var z
  | H : context [match ?z with Z0 => _ | Zpos _ => _ | Zneg _ => _ end]
    |- _ => split_var z
  | |- context [match ?z with Z0 => _ | Zpos _ => _ | Zneg _ => _ end] =>
      split_var z
  | H : context [match ?f with S754_zero _ => _ | S754_infinity _ => _
                 | S754_nan => _ | S754_finite _ _ _ => _ end] |- _ =>
      split_var f
  | |- context [match ?f with S754_zero _ => _ | S754_infinity _ => _
                | S754_nan => _ | S754_finite _ _ _ => _ end] => split_var f
  | H : context [match ?s with EmptyString => _ | String _ _ => _ end]
    |- _ => split_var s
  | |- context [match ?s with EmptyString => _ | String _ _ => _ end] =>
      split_var s
  | H : context [match ?l with nil => _ | cons _ _ => _ end] |- _ =>
      split_var l
  | |- context [match ?l with nil => _ | cons _ _ => _ end] => split_var l
  end.

Ltac chain :=
  repeat first [progress chain_simpl | once chain_step];
  try reflexivity; try congruence.

Lemma extract_title_lacking (detail : value) :
  lacks_path detail ["title"] = true -> extract_title detail = Ok (VStr "").
Proof.
  unfold extract_title. intros H. chain.
Qed.

(** C2, as stated, fails: the title taken from the summary is not the
    summary's value itself but what [sanitize_markdown] makes of it. *)
Lemma summary_title_not_returned_as_is :
  ~ (forall (detail ws : value) (s : string),
       lacks_path detail ["title"] = true ->
       at_path ws title_path = VStr s ->
       row_title detail ws = Ok s).
Proof.
  intros H.
  specialize (H (VDict []) sample_summary " Study A" eq_refl eq_refl).
  vm_compute in H. discriminate H.
Qed.

Lemma extract_journal_lacking (detail : value) :
  lacks_path detail ["journal-title"; "value"] = true ->
  extract_journal detail = Ok (VStr "").
Proof.
  unfold extract_journal. intros H. chain.
Qed.

Lemma year_of_work_lacking (detail : value) :
  lacks_path detail ["publication-date"; "year"; "value"] = true ->
  year_of_work detail = Ok None.
Proof.
  unfold year_of_work. intros H. chain.
Qed.

Lemma year_of_summary_present (ws : value) :
  truthy (at_path ws ["publication-date"; "year"; "value"]) = true ->
  year_of_summary ws = Ok (at_path ws ["publication-date"; "year"; "value"]).
Proof.
  unfold year_of_summary. intros H. chain.
Qed.

Lemma year_of_summary_lacking (ws : value) :
  lacks_path ws ["publication-date"; "year"; "value"] = true ->
  year_of_summary ws = Ok (VStr "").
Proof.
  unfold year_of_summary. intros H. chain.
Qed.

Lemma extract_year_from_summary (detail ws : value) :
  lacks_path detail ["publication-date"; "year"; "value"] = true ->
  truthy (at_path ws ["publication-date"; "year"; "value"]) = true ->
  extract_year detail ws = Ok (at_path ws ["publication-date"; "year"; "value"]).
Proof.
  intros H Hs. unfold extract_year.
  rewrite (year_of_work_lacking _ H). apply year_of_summary_present, Hs.
Qed.

Lemma extract_year_both_lacking (detail ws : value) :
  lacks_path detail ["publication-date"; "year"; "value"] = true ->
  lacks_path ws ["publication-date"; "year"; "value"] = true ->
  extract_year detail ws = Ok (VStr "").
Proof.
  intros H Hs. unfold extract_year.
  rewrite (year_of_work_lacking _ H). apply year_of_summary_lacking, Hs.
Qed.

Lemma row_title_from_summary (detail ws : value) :
  lacks_path detail ["title"] = true ->
  truthy (at_path ws ["title"; "title"; "value"]) = true ->
  row_title detail ws
  = Ok (sanitize_markdown (at_path ws ["title"; "title"; "value"])).
Proof.
  intros H Hs. unfold row_title.
  rewrite (extract_title_lacking _ H). clear H. chain.
Qed.

Lemma row_title_from_plain_summary (detail ws : value) (s : string) :
  lacks_path detail ["title"] = true ->
  at_path ws ["title"] = VStr s ->
  row_title detail ws = Ok (sanitize_markdown (VStr s)).
Proof.
  intros H Hs. unfold row_title.
  rewrite (extract_title_lacking _ H). clear H. chain.
Qed.

Lemma row_title_both_lacking (detail ws : value) :
  lacks_path detail ["title"] = true ->
  lacks_path ws ["title"; "title"; "value"] = true ->
  row_title detail ws = Ok "".
Proof.
  intros H Hs. unfold row_title.
  rewrite (extract_title_lacking _ H). clear H. chain.
Qed.

Lemma row_journal_from_summary (detail ws : value) :
  lacks_path detail ["journal-title"; "value"] = true ->
  truthy (at_path ws ["journal-title"; "value"]) = true ->
  row_journal detail ws
  = Ok (sanitize_markdown (at_path ws ["journal-title"; "value"])).
Proof.
  intros H Hs. unfold row_journal.
  rewrite (extract_journal_lacking _ H). clear H. chain.
Qed.

Lemma row_journal_both_lacking (detail ws : value) :
  lacks_path detail ["journal-title"; "value"] = true ->
  lacks_path ws ["journal-title"; "value"] = true ->
  row_journal detail ws = Ok "".
Proof.
  intros H Hs. unfold row_journal.
  rewrite (extract_journal_lacking _ H). clear H. chain.
Qed.

Lemma dict_safe_get_loop_empty (ks : list string) (dflt : value) :
  dict_safe_get_loop (VDict []) ks dflt = dflt.
Proof.
  induction ks as [|k ks IH]; [reflexivity | exact IH].
Qed.

Lemma dict_safe_get_loop_path (ks : list string) :
  forall cur dflt,
    dict_safe_get_loop cur ks dflt
    = (if truthy (at_path cur ks) && negb (isinstance_dict (at_path cur ks))
       then at_path cur ks else dflt).
Proof.
  induction ks as [|k ks IH]; intros cur dflt.
  - cbn [dict_safe_get_loop at_path]. unfold py_or.
    destruct (isinstance_dict cur); [rewrite andb_false_r|rewrite andb_true_r];
      reflexivity.
  - cbn [dict_safe_get_loop at_path].
    destruct cur as [| | | | | |d]; try reflexivity.
    destruct (dict_lookup d k) as [x|]; [apply IH|].
    apply dict_safe_get_loop_empty.
Qed.

Lemma at_path_not_dict (v : value) (k : string) (ks : list string) :
  isinstance_dict v = false -> at_path v (k :: ks) = VNone.
Proof. destruct v; try reflexivity. discriminate. Qed.

Lemma dict_safe_get_present (ws : value) (k : string) (ks : list string) :
  dict_safe_get ws (k :: ks) (VStr "")
  = (if present_leaf (at_path ws (k :: ks)) then at_path ws (k :: ks)
     else VStr "").
Proof.
  unfold dict_safe_get, present_leaf.
  destruct (isinstance_dict ws) eqn:E.
  - apply dict_safe_get_loop_path.
  - rewrite dict_safe_get_loop_empty, (at_path_not_dict _ _ _ E).
    reflexivity.
Qed.

Lemma present_leaf_truthy (v : value) : present_leaf v = true -> truthy v = true.
Proof.
  unfold present_leaf. intros H. apply andb_true_iff in H. exact (proj1 H).
Qed.

Lemma row_title_fallback (detail ws : value) :
  extract_title detail = Ok (VStr "") ->
  row_title detail ws = Ok (sanitize_markdown (summary_title ws)).
Proof.
  intros H. unfold row_title. rewrite H. cbn [bind].
  do 2 f_equal. unfold summary_title, title_path.
  rewrite !dict_safe_get_present.
  change (py_or (VStr "") ?a) with a.
  destruct (present_leaf (at_path ws ["title"; "title"; "value"])) eqn:P.
  - unfold py_or. rewrite (present_leaf_truthy _ P). reflexivity.
  - reflexivity.
Qed.

Lemma row_journal_fallback (detail ws : value) :
  extract_journal detail = Ok (VStr "") ->
  row_journal detail ws = Ok (sanitize_markdown (summary_journal ws)).
Proof.
  intros H. unfold row_journal. rewrite H. cbn [bind].
  do 2 f_equal. unfold summary_journal, journal_path.
  rewrite dict_safe_get_present. reflexivity.
Qed.

Lemma year_of_summary_nested (ws : value) :
  year_nested ws = true -> year_of_summary ws = Ok (summary_year ws).
Proof.
  unfold year_nested, absent_or, summary_year, year_path, year_of_summary.
  intros H. chain.
Qed.

Lemma extract_year_fallback (detail ws : value) :
  year_of_work detail = Ok None ->
  year_nested ws = true ->
  extract_year detail ws = Ok (summary_year ws).
Proof.
  intros H Hn. unfold extract_year. rewrite H.
  apply year_of_summary_nested, Hn.
Qed.

Lemma extract_title_nothing (detail : value) :
  lacks_path detail title_path = true ->
  null_inner_title detail = false ->
  extract_title detail = Ok (VStr "").
Proof.
  unfold extract_title, title_path, null_inner_title. intros H Hn. chain.
Qed.

Lemma summary_title_lacking (ws : value) :
  lacks_path ws title_path = true -> summary_title ws = VStr "".
Proof.
  unfold summary_title, present_leaf, title_path. intros H. chain.
Qed.

Lemma summary_journal_lacking (ws : value) :
  lacks_path ws journal_path = true -> summary_journal ws = VStr "".
Proof.
  unfold summary_journal, present_leaf, journal_path. intros H. chain.
Qed.

Lemma summary_year_lacking (ws : value) :
  lacks_path ws year_path = true ->
  year_nested ws = true /\ summary_year ws = VStr "".
Proof.
  unfold year_nested, absent_or, summary_year, year_path. intros H.
  split; chain.
Qed.

(** C2 (amended): whenever the detail object yields no title, no venue or
    no year (the extractor returns its empty value), the value comes from
    the summary: the title is the summary's title and the venue the
    summary's venue, each passed through [sanitize_markdown], for every
    summary value; the year is the summary's year as it is, for every
    summary whose publication date and year are objects or absent.  The
    detail yields nothing when it is absent (null, empty) or a level on the
    way to the field is missing or empty, for the title with the exception
    of an inner title that is null or another empty non-object.  When the
    summary lacks the field too, the value is the empty string.  In all
    these cases the extraction returns, no exception is raised. *)
Theorem summary_fallback (detail ws : value) :
  (extract_title detail = Ok (VStr "") ->
     row_title detail ws = Ok (sanitize_markdown (summary_title ws)))
  /\ (extract_journal detail = Ok (VStr "") ->
      row_journal detail ws = Ok (sanitize_markdown (summary_journal ws)))
  /\ (year_of_work detail = Ok None -> year_nested ws = true ->
      extract_year detail ws = Ok (summary_year ws))
  /\ (lacks_path detail title_path = true ->
      null_inner_title detail = false ->
      extract_title detail = Ok (VStr ""))
  /\ (lacks_path detail journal_path = true ->
      extract_journal detail = Ok (VStr ""))
  /\ (lacks_path detail year_path = true -> year_of_work detail = Ok None)
  /\ (lacks_path ws title_path = true ->
      sanitize_markdown (summary_title ws) = "")
  /\ (lacks_path ws journal_path = true ->
      sanitize_markdown (summary_journal ws) = "")
  /\ (lacks_path ws year_path = true ->
      year_nested ws = true /\ summary_year ws = VStr "").
Proof.
  split; [apply row_title_fallback|].
  split; [apply row_journal_fallback|].
  split; [apply extract_year_fallback|].
  split; [apply extract_title_nothing|].
  split; [apply extract_journal_lacking|].
  split; [apply year_of_work_lacking|].
  split; [intros H; rewrite (summary_title_lacking _ H); reflexivity|].
  split; [intros H; rewrite (summary_journal_lacking _ H); reflexivity|].
  apply summary_year_lacking.
Qed.

Lemma summary_fallback_witness :
  row_title (VDict [("title", VDict [("title", VDict [("value", VStr "")])])])
            sample_summary
  = Ok "Study A"
  /\ row_journal VNone sample_summary = Ok "Journal X"
  /\ extract_year (VDict []) sample_summary = Ok (VStr "2020")
  /\ extract_title (VDict [("title", VDict [("subtitle", VNone)])])
     = Ok (VStr "")
  /\ sanitize_markdown (summary_title (VDict [("put-code", VInt 1)])) = "".
Proof.
  split; [|split; [|split; [|split]]].
  - apply (summary_fallback
             (VDict [("title", VDict [("title", VDict [("value", VStr "")])])])
             sample_summary). reflexivity.
  - apply (summary_fallback VNone sample_summary). reflexivity.
  - apply (summary_fallback (VDict []) sample_summary); reflexivity.
  - apply (summary_fallback (VDict [("title", VDict [("subtitle", VNone)])])
                            VNone); reflexivity.
  - apply (summary_fallback VNone (VDict [("put-code", VInt 1)])).
    reflexivity.
Defined.



(** C10: when the external identifiers hold DOI-like entries (one, or more
    than one), the DOI returned is the normalised value of the last of them
    in list order, and the link is still the first non-empty URL in list
    order; on a detail object of the expected shape the extraction
    returns exactly that pair. *)
Theorem last_doi_entry_wins (work e : value) :
  last_doi_entry (ext_ids work) = Some e ->
  (forall doi url,
      extract_doi_and_url work = Ok (doi, url) ->
      normalize_doi (entry_value e) = Ok doi /\ url = spec_link work)
  /\ (wf_work work = true ->
      exists doi,
        normalize_doi (entry_value e) = Ok doi
        /\ extract_doi_and_url work = Ok (doi, spec_link work)).
Proof.
  intros He.
  assert (Hspec : forall doi url,
             extract_doi_and_url work = Ok (doi, url) ->
             normalize_doi (entry_value e) = Ok doi /\ url = spec_link work).
  { intros doi url H.
    destruct (extract_doi_and_url_spec _ _ _ H) as [Hu Hd].
    rewrite He in Hd. split; assumption. }
  split; [exact Hspec|].
  intros Hwf. apply extract_doi_and_url_total in Hwf.
  destruct (extract_doi_and_url work) as [[doi url]|x] eqn:E;
    [|discriminate Hwf].
  destruct (Hspec doi url eq_refl) as [Hd Hu].
  exists doi. subst url. split; [exact Hd | reflexivity].
Qed.

Lemma last_doi_entry_wins_witness :
  last_doi_entry (ext_ids sample_work) = Some sample_ext_id_2
  /\ extract_doi_and_url sample_work
     = Ok ("10.1000/xyz", VStr "https://example.org/xyz").
Proof.
  split; [reflexivity|].
  destruct (last_doi_entry_wins sample_work sample_ext_id_2 eq_refl)
    as [_ Hok].
  destruct (Hok eq_refl) as (doi & Hd & Hx).
  rewrite Hx. vm_compute in Hd. inversion Hd. reflexivity.
Defined.

(* ----------------------------------------------------------------- *)
(** ** The loop over the groups and the process *)

Lemma group_body_skip (w : world) (rows : list row) (g : value) (st : pstate) :
  select_summary g = Ok None -> group_body w rows g st = (Ok rows, st).
Proof.
  intros H. unfold group_body, bindP, lift. rewrite H. reflexivity.
Qed.

Lemma group_body_fetch_failed (w : world) (rows : list row) (g ws pc : value)
      (e : exn) (st : pstate) :
  select_summary g = Ok (Some (ws, pc)) ->
  work_reply w (requests st) pc = Raise e ->
  group_body w rows g st
  = (Ok rows,
     mkState (trace st ++ [EFetchWork pc; EWarn pc e]) (S (requests st))).
Proof.
  intros Hs Hf. unfold group_body, bindP, lift, fetch_work, emit, ret.
  rewrite Hs. cbn. rewrite Hf. cbn. rewrite <- app_assoc. reflexivity.
Qed.

Lemma group_body_fetched (w : world) (rows : list row) (g ws pc js : value)
      (st : pstate) :
  select_summary g = Ok (Some (ws, pc)) ->
  work_reply w (requests st) pc = Ok js ->
  group_body w rows g st
  = match assemble_row (py_or js (VDict [])) ws with
    | Ok r =>
        (Ok (rows ++ [r]),
         mkState (trace st ++ [EFetchWork pc; ESleep]) (S (requests st)))
    | Raise x =>
        (Raise x, mkState (trace st ++ [EFetchWork pc]) (S (requests st)))
    end.
Proof.
  intros Hs Hf. unfold group_body, bindP, lift, fetch_work, emit, ret.
  rewrite Hs. cbn. rewrite Hf. cbn.
  destruct (assemble_row (py_or js (VDict [])) ws); cbn;
    [rewrite <- app_assoc|]; reflexivity.
Qed.

(** The rows after one group: those before it, with at most one more. *)
Lemma group_body_rows (w : world) (rows rows' : list row) (g : value)
      (st st' : pstate) :
  group_body w rows g st = (Ok rows', st') ->
  rows' = rows \/ exists r, rows' = rows ++ [r].
Proof.
  intros H.
  destruct (select_summary g) as [[[ws pc]|]|x] eqn:Hs.
  - destruct (work_reply w (requests st) pc) as [js|e] eqn:Hf.
    + rewrite (group_body_fetched _ _ _ _ _ _ _ Hs Hf) in H.
      destruct (assemble_row (py_or js (VDict [])) ws) as [r|];
        inversion H. right. eauto.
    + rewrite (group_body_fetch_failed _ _ _ _ _ _ _ Hs Hf) in H.
      inversion H. left. reflexivity.
  - rewrite (group_body_skip _ _ _ _ Hs) in H. inversion H. left. reflexivity.
  - unfold group_body, bindP, lift in H. rewrite Hs in H. discriminate H.
Qed.

Lemma for_groups_rows (w : world) (gs : list value) :
  forall (rows rows' : list row) (st st' : pstate),
    for_groups w gs rows st = (Ok rows', st') ->
    (List.length rows' <= List.length rows + List.length gs)%nat.
Proof.
  induction gs as [|g rest IH]; intros rows rows' st st' H.
  - inversion H. simpl. lia.
  - cbn [for_groups] in H. unfold bindP in H.
    destruct (group_body w rows g st) as [[rows1|x] st1] eqn:Hb;
      [|discriminate H].
    apply IH in H. apply group_body_rows in Hb.
    destruct Hb as [-> | [r ->]]; [|rewrite length_app in H];
      simpl in *; lia.
Qed.

Lemma for_groups_survives (w : world) (gs : list value) :
  Forall (survives w) gs ->
  forall rows st, exists rows' st', for_groups w gs rows st = (Ok rows', st').
Proof.
  induction 1 as [|g rest Hg _ IH]; intros rows st.
  - simpl. unfold ret. eauto.
  - cbn [for_groups]. unfold bindP. unfold survives in Hg.
    destruct (select_summary g) as [[[ws pc]|]|x] eqn:Hs; [| |contradiction].
    + specialize (Hg (requests st)).
      destruct (work_reply w (requests st) pc) as [js|e] eqn:Hf.
      * rewrite (group_body_fetched _ _ _ _ _ _ _ Hs Hf).
        destruct (assemble_row (py_or js (VDict [])) ws);
          [apply IH | discriminate Hg].
      * rewrite (group_body_fetch_failed _ _ _ _ _ _ _ Hs Hf). apply IH.
    + rewrite (group_body_skip _ _ _ _ Hs). apply IH.
Qed.

Lemma count_app (p : event -> bool) (a b : list event) :
  count p (a ++ b) = (count p a + count p b)%nat.
Proof.
  unfold count. rewrite filter_app, length_app. reflexivity.
Qed.

Lemma for_groups_all_fail (w : world) (gs : list value) :
  Forall (fetch_fails w) gs ->
  forall rows st,
  exists st',
    for_groups w gs rows st = (Ok rows, st')
    /\ count is_warn (trace st') = (count is_warn (trace st) + List.length gs)%nat
    /\ count is_sleep (trace st') = count is_sleep (trace st)
    /\ count is_write (trace st') = count is_write (trace st).
Proof.
  induction 1 as [|g rest Hg _ IH]; intros rows st.
  - exists st. simpl. unfold ret. repeat split; lia.
  - destruct Hg as (ws & pc & Hs & Hf).
    specialize (Hf (requests st)).
    destruct (work_reply w (requests st) pc) as [js|e] eqn:Hr;
      [discriminate Hf|].
    cbn [for_groups]. unfold bindP.
    rewrite (group_body_fetch_failed _ _ _ _ _ _ _ Hs Hr).
    destruct (IH rows (mkState (trace st ++ [EFetchWork pc; EWarn pc e])
                                (S (requests st))))
      as (st' & Hrun & Hw & Hsl & Hwr).
    exists st'. split; [exact Hrun|].
    cbn [trace] in *. rewrite count_app in Hw, Hsl, Hwr.
    unfold count in *. simpl in *. repeat split; lia.
Qed.

Lemma main_after_loop (w : world) (record : value) (gs : list value)
      (rows : list row) (st : pstate) :
  record_reply w = Ok record ->
  get_groups_list record = Ok gs ->
  for_groups w gs [] (mkState [EFetchRecord] 0) = (Ok rows, st) ->
  main w = mkOutcome 0 None (trace st ++ [EWrite (sort_rows rows)]).
Proof.
  intros Hr Hg Hl. unfold main, after_record, bindP, lift, emit.
  rewrite Hr, Hg, Hl. reflexivity.
Qed.

Lemma count_write_positive (evs : list event) (rows : list row) :
  (0 < count is_write (evs ++ [EWrite rows]))%nat.
Proof.
  rewrite count_app. unfold count at 2. simpl. lia.
Qed.

(** C3: the two tiers of the error policy.  (a) When the record fetch
    fails the process reports it, exits with status 1 and writes nothing.
    (b) When the fetch of a work fails, the group adds no row, a warning is
    emitted and the loop goes on with the next group.  (c) The process
    exits with status 0 and writes the file whenever every group is
    skipped, fails to be fetched or yields a row, however many fetches
    fail; (d) that includes the run in which every fetch fails and zero
    rows are written. *)
Theorem two_tier_error_policy (w : world) :
  (forall e,
      record_reply w = Raise e ->
      exit_status (main w) = 1%Z
      /\ events (main w) = [EFetchRecord; EFatal e]
      /\ count is_write (events (main w)) = 0%nat)
  /\ (forall rows g rest ws pc e st,
        select_summary g = Ok (Some (ws, pc)) ->
        work_reply w (requests st) pc = Raise e ->
        group_body w rows g st
        = (Ok rows,
           mkState (trace st ++ [EFetchWork pc; EWarn pc e])
                   (S (requests st)))
        /\ for_groups w (g :: rest) rows st
           = for_groups w rest rows
               (mkState (trace st ++ [EFetchWork pc; EWarn pc e])
                        (S (requests st))))
  /\ (forall record gs,
        record_reply w = Ok record ->
        get_groups_list record = Ok gs ->
        Forall (survives w) gs ->
        exit_status (main w) = 0%Z
        /\ uncaught (main w) = None
        /\ (0 < count is_write (events (main w)))%nat)
  /\ (forall record gs,
        record_reply w = Ok record ->
        get_groups_list record = Ok gs ->
        Forall (fetch_fails w) gs ->
        exit_status (main w) = 0%Z
        /\ In (EWrite []) (events (main w))
        /\ count is_warn (events (main w)) = List.length gs).
Proof.
  split; [|split; [|split]].
  - intros e He. unfold main. rewrite He. repeat split.
  - intros rows g rest ws pc e st Hs Hf.
    pose proof (group_body_fetch_failed w rows g ws pc e st Hs Hf) as Hb.
    split; [exact Hb|].
    cbn [for_groups]. unfold bindP. rewrite Hb. reflexivity.
  - intros record gs Hr Hg Hall.
    destruct (for_groups_survives w gs Hall [] (mkState [EFetchRecord] 0))
      as (rows & st & Hl).
    rewrite (main_after_loop _ _ _ _ _ Hr Hg Hl).
    cbn [exit_status uncaught events].
    repeat split. apply count_write_positive.
  - intros record gs Hr Hg Hall.
    destruct (for_groups_all_fail w gs Hall [] (mkState [EFetchRecord] 0))
      as (st & Hl & Hw & _ & _).
    rewrite (main_after_loop _ _ _ _ _ Hr Hg Hl).
    cbn [exit_status uncaught events].
    split; [reflexivity|]. split.
    + apply in_or_app. right. left. reflexivity.
    + rewrite count_app, Hw. unfold count. simpl. lia.
Qed.

Lemma dead_world_groups_fail :
  Forall (fetch_fails dead_world) [sample_group 123; sample_group 124].
Proof.
  repeat constructor.
  - exists (VDict [("put-code", VInt 123)]), (VInt 123).
    split; [reflexivity | intros n; reflexivity].
  - exists (VDict [("put-code", VInt 124)]), (VInt 124).
    split; [reflexivity | intros n; reflexivity].
Defined.

Lemma two_tier_error_policy_witness :
  exit_status (main dark_world) = 1%Z
  /\ count is_write (events (main dark_world)) = 0%nat
  /\ exit_status (main dead_world) = 0%Z
  /\ In (EWrite []) (events (main dead_world))
  /\ count is_warn (events (main dead_world)) = 2%nat.
Proof.
  destruct (two_tier_error_policy dark_world) as (Hfatal & _).
  destruct (Hfatal FetchError eq_refl) as (H1 & _ & H0).
  destruct (two_tier_error_policy dead_world) as (_ & _ & _ & Hdead).
  destruct (Hdead sample_record [sample_group 123; sample_group 124]
                  eq_refl eq_refl dead_world_groups_fail)
    as (Hexit & Hwrite & Hwarn).
  repeat split; assumption.
Defined.

Lemma select_summary_first (d d' : list (string * value)) (ws : value)
      (rest rest' : list value) :
  dict_lookup d "work-summary" = Some (VList (ws :: rest)) ->
  dict_lookup d' "work-summary" = Some (VList (ws :: rest')) ->
  select_summary (VDict d') = select_summary (VDict d).
Proof.
  intros H H'. unfold select_summary. cbn [py_get].
  rewrite H, H'. reflexivity.
Qed.

(** C9: a work group contributes at most one row: after the body of the
    loop the rows are those before it, or those with one row appended;
    none is added when the fetch of the work fails, exactly one when the
    work is fetched and its row is assembled; two groups whose summary
    lists begin with the same summary are treated alike, whatever follows
    in the lists; and a whole run yields no more rows than groups. *)
Theorem at_most_one_row_per_group (w : world) (rows : list row) (g : value)
        (st : pstate) :
  (forall rows' st',
      group_body w rows g st = (Ok rows', st') ->
      rows' = rows \/ exists r, rows' = rows ++ [r])
  /\ (forall ws pc e,
        select_summary g = Ok (Some (ws, pc)) ->
        work_reply w (requests st) pc = Raise e ->
        fst (group_body w rows g st) = Ok rows)
  /\ (forall ws pc js r,
        select_summary g = Ok (Some (ws, pc)) ->
        work_reply w (requests st) pc = Ok js ->
        assemble_row (py_or js (VDict [])) ws = Ok r ->
        fst (group_body w rows g st) = Ok (rows ++ [r]))
  /\ (forall d d' ws rest rest',
        g = VDict d ->
        dict_lookup d "work-summary" = Some (VList (ws :: rest)) ->
        dict_lookup d' "work-summary" = Some (VList (ws :: rest')) ->
        group_body w rows (VDict d') st = group_body w rows g st)
  /\ (forall gs rows' st',
        for_groups w gs [] st = (Ok rows', st') ->
        (List.length rows' <= List.length gs)%nat).
Proof.
  split; [|split; [|split; [|split]]].
  - intros rows' st'. apply group_body_rows.
  - intros ws pc e Hs Hf.
    rewrite (group_body_fetch_failed _ _ _ _ _ _ _ Hs Hf). reflexivity.
  - intros ws pc js r Hs Hf Ha.
    rewrite (group_body_fetched _ _ _ _ _ _ _ Hs Hf), Ha. reflexivity.
  - intros d d' ws rest rest' -> H H'.
    unfold group_body. rewrite (select_summary_first d d' ws rest rest' H H').
    reflexivity.
  - intros gs rows' st' H. apply for_groups_rows in H. simpl in H. exact H.
Qed.

Lemma at_most_one_row_per_group_witness :
  fst (group_body flaky_world [] (sample_group 123) (mkState [] 0)) = Ok []
  /\ (exists r,
        fst (group_body flaky_world [] (sample_group 124) (mkState [] 1))
        = Ok [r]).
Proof.
  split.
  - apply (at_most_one_row_per_group flaky_world [] (sample_group 123)
             (mkState [] 0))
      with (ws := VDict [("put-code", VInt 123)]) (pc := VInt 123)
           (e := FetchError); reflexivity.
  - eexists.
    apply (at_most_one_row_per_group flaky_world [] (sample_group 124)
             (mkState [] 1))
      with (ws := VDict [("put-code", VInt 124)]) (pc := VInt 124)
           (js := sample_work); reflexivity.
Defined.

(* ----------------------------------------------------------------- *)
(** ** Where the code departs from its own conventions *)

(** C1 (the code departs from the claim): [extract_title] guards the outer
    [title] entry against null with [or {}], as [extract_journal] and
    [extract_year] do at every level, but not the inner one: a detail
    object whose inner title is null raises [AttributeError] where the
    sibling extractors return their empty default. *)
Theorem extract_title_raises_on_null_inner_title :
  extract_title (VDict [("title", VDict [("title", VNone)])])
  = Raise AttributeError
  /\ extract_title (VDict [("title", VNone)]) = Ok (VStr "")
  /\ extract_journal (VDict [("journal-title", VNone)]) = Ok (VStr "")
  /\ extract_year
       (VDict [("publication-date", VDict [("year", VNone)])]) VNone
     = Ok (VStr "").
Proof. repeat split. Qed.

(** C7 (the code departs from the claim): title and venue go through
    [sanitize_markdown]; author names and the year do not, so a line break
    inside them reaches the row. *)
Theorem authors_and_year_not_sanitized :
  assemble_row untidy_work (VDict [("put-code", VInt 1)])
  = Ok {| title := "Study A";
          authors := " J." ++ newline ++ "Doe ";
          journal := "";
          year := VStr (" 2020" ++ newline);
          doi := "";
          link := VStr "" |}.
Proof. vm_compute. reflexivity. Qed.

(** C8 (the code departs from the claim): the pause of line 171 closes the
    loop body, and the [continue] of the failure handler leaves the body
    before it: after a failed fetch the next request follows the warning
    without a pause.  No request is repeated. *)
Theorem no_sleep_after_failed_fetch :
  events (main flaky_world)
  = [EFetchRecord;
     EFetchWork (VInt 123); EWarn (VInt 123) FetchError;
     EFetchWork (VInt 124); ESleep;
     EWrite [{| title := "Study A";
                authors := "";
                journal := "";
                year := VStr "";
                doi := "[10.1000/xyz](https://doi.org/10.1000/xyz)";
                link := VStr "https://example.org/xyz" |}]]
  /\ count is_sleep (events (main dead_world)) = 0%nat
  /\ count is_fetch_work (events (main dead_world)) = 2%nat.
Proof. vm_compute. repeat split. Qed.

(* ================================================================= *)
(** * Further properties of the code *)

(* ----------------------------------------------------------------- *)
(** ** String methods *)

Lemma startswith_nil (s : string) : startswith s "" = true.
Proof. destruct s; reflexivity. Qed.

Lemma contains_char_cons (c a : ascii) (r : string) :
  contains (String c "") (String a r)
  = Ascii.eqb c a || contains (String c "") r.
Proof.
  cbn [contains startswith]. rewrite startswith_nil, andb_true_r. reflexivity.
Qed.

(** Replacing a one-character pattern, one character at a time. *)
Lemma replace_char_cons (a x : ascii) (new r : string) :
  replace (String x r) (String a "") new
  = if Ascii.eqb a x
    then (new ++ replace r (String a "") new)%string
    else String x (replace r (String a "") new).
Proof.
  unfold replace. cbn [replace_from startswith String.length Nat.sub].
  rewrite startswith_nil, andb_true_r. reflexivity.
Qed.

Lemma replace_char_nil (a : ascii) (new : string) :
  replace "" (String a "") new = "".
Proof. reflexivity. Qed.

Lemma replace_char_gone (a b : ascii) (s : string) :
  Ascii.eqb a b = false ->
  contains (String a "") (replace s (String a "") (String b "")) = false.
Proof.
  intros Hab. induction s as [|x r IH]; [reflexivity|].
  rewrite replace_char_cons. destruct (Ascii.eqb a x) eqn:E.
  - cbn [String.append]. rewrite contains_char_cons, Hab, IH. reflexivity.
  - rewrite contains_char_cons, E, IH. reflexivity.
Qed.

Lemma lstrip_keeps_absence (c : ascii) (s : string) :
  contains (String c "") s = false -> contains (String c "") (lstrip s) = false.
Proof.
  induction s as [|x r IH]; [trivial|].
  intros H. cbn [lstrip]. destruct (is_space x); [|exact H].
  rewrite contains_char_cons in H. apply orb_false_iff in H. apply IH, H.
Qed.

Lemma rstrip_keeps_absence (c : ascii) (s : string) :
  contains (String c "") s = false -> contains (String c "") (rstrip s) = false.
Proof.
  induction s as [|x r IH]; [trivial|].
  intros H. rewrite contains_char_cons in H. apply orb_false_iff in H.
  destruct H as [Hx Hr]. specialize (IH Hr). cbn [rstrip].
  destruct (rstrip r) as [|y t].
  - destruct (is_space x); [reflexivity|].
    rewrite contains_char_cons, Hx. reflexivity.
  - rewrite contains_char_cons, Hx. exact IH.
Qed.

Lemma lstrip_head (s : string) : head_not_space (lstrip s).
Proof.
  induction s as [|x r IH]; [exact I|].
  cbn [lstrip]. destruct (is_space x) eqn:E; [exact IH | exact E].
Qed.

Lemma lstrip_fixed (s : string) : head_not_space s -> lstrip s = s.
Proof.
  destruct s as [|x r]; [reflexivity|].
  cbn [head_not_space lstrip]. intros ->. reflexivity.
Qed.

Lemma rstrip_head (s : string) : head_not_space s -> head_not_space (rstrip s).
Proof.
  destruct s as [|x r]; [trivial|].
  cbn [head_not_space rstrip]. intros H.
  destruct (rstrip r); [rewrite H|]; exact H.
Qed.

Lemma rstrip_idempotent (s : string) : rstrip (rstrip s) = rstrip s.
Proof.
  induction s as [|x r IH]; [reflexivity|].
  cbn [rstrip]. destruct (rstrip r) as [|y t] eqn:E.
  - destruct (is_space x) eqn:Ex; [reflexivity|].
    cbn [rstrip]. rewrite Ex. reflexivity.
  - cbn [rstrip]. cbn [rstrip] in IH. rewrite IH. reflexivity.
Qed.

Lemma strip_idempotent (s : string) : strip (strip s) = strip s.
Proof.
  unfold strip.
  rewrite (lstrip_fixed (rstrip (lstrip s))).
  - apply rstrip_idempotent.
  - apply rstrip_head, lstrip_head.
Qed.

Lemma lstrip_length (s : string) :
  (String.length (lstrip s) <= String.length s)%nat.
Proof.
  induction s as [|x r IH]; [apply le_n|].
  cbn [lstrip]. destruct (is_space x); cbn [String.length]; lia.
Qed.

Lemma rstrip_length (s : string) :
  (String.length (rstrip s) <= String.length s)%nat.
Proof.
  induction s as [|x r IH]; [apply le_n|].
  cbn [rstrip]. destruct (rstrip r) as [|y t].
  - destruct (is_space x); cbn [String.length]; lia.
  - cbn [String.length] in *. lia.
Qed.

Lemma remove_length (old s : string) :
  forall skip,
    (String.length (replace_from old "" skip s) <= String.length s)%nat.
Proof.
  induction s as [|x r IH]; intros skip.
  - cbn [replace_from]. destruct skip, old; apply le_n.
  - cbn [replace_from]. destruct skip as [|k].
    + destruct (startswith (String x r) old).
      * cbn [String.append]. destruct old.
        -- cbn [String.length]. specialize (IH 0%nat). lia.
        -- cbn [String.length Nat.sub].
           specialize (IH (String.length old - 0)%nat). lia.
      * cbn [String.length]. specialize (IH 0%nat). lia.
    + cbn [String.length]. specialize (IH k). lia.
Qed.

(** X1: the DOI normalisation of lines 82-85 never raises (the
    [split(':', 1)[1]] is only reached behind [startswith('doi:')]) and
    never returns a string longer than the identifier value. *)
Theorem normalize_doi_never_raises (val : string) :
  exists d,
    normalize_doi val = Ok d
    /\ (String.length d <= String.length val)%nat.
Proof.
  unfold normalize_doi.
  set (a := strip val).
  set (b := replace a "https://doi.org/" "").
  set (t := replace b "http://doi.org/" "").
  assert (Hlen : (String.length t <= String.length val)%nat).
  { pose proof (remove_length "http://doi.org/" b 0) as H1.
    pose proof (remove_length "https://doi.org/" a 0) as H2.
    pose proof (rstrip_length (lstrip val)) as H3.
    pose proof (lstrip_length val) as H4.
    unfold t, b, a, replace, strip in *. lia. }
  clearbody t. clear a b.
  destruct (startswith t "doi:") eqn:E.
  - apply startswith_append in E. destruct E as [r ->].
    exists r. split; [reflexivity|].
    cbn [String.append String.length] in Hlen. lia.
  - exists t. split; [reflexivity | exact Hlen].
Qed.

Lemma sanitize_no_newline (v : value) :
  contains newline (sanitize_markdown v) = false.
Proof.
  destruct v; try reflexivity.
  unfold sanitize_markdown, strip.
  apply rstrip_keeps_absence, lstrip_keeps_absence.
  apply (replace_char_gone (ascii_of_nat 10) " " s). reflexivity.
Qed.

Lemma sanitize_stripped (v : value) :
  strip (sanitize_markdown v) = sanitize_markdown v.
Proof.
  destruct v; try reflexivity.
  unfold sanitize_markdown. apply strip_idempotent.
Qed.

(** X3: what [sanitize_markdown] returns holds no line feed and has no
    whitespace at either end, whatever it is given; sanitising a second
    time changes nothing; and a string that has no line feed and no
    whitespace at its ends is returned as it is, so that every other
    character inside, a carriage return included, is kept. *)
Theorem sanitize_markdown_clean (v : value) :
  contains newline (sanitize_markdown v) = false
  /\ strip (sanitize_markdown v) = sanitize_markdown v
  /\ sanitize_markdown (VStr (sanitize_markdown v)) = sanitize_markdown v
  /\ (forall s,
        v = VStr s -> contains newline s = false -> strip s = s ->
        sanitize_markdown v = s).
Proof.
  split; [apply sanitize_no_newline|].
  split; [apply sanitize_stripped|].
  split.
  - change (strip (replace (sanitize_markdown v) newline " ")
            = sanitize_markdown v).
    rewrite replace_absent by apply sanitize_no_newline.
    apply sanitize_stripped.
  - intros s -> Hn Hs. cbn [sanitize_markdown].
    rewrite (replace_absent s newline " " Hn). exact Hs.
Qed.

Lemma sanitize_markdown_clean_witness :
  sanitize_markdown (VStr ("a" ++ String (ascii_of_nat 13) " b"))
  = ("a" ++ String (ascii_of_nat 13) " b")%string.
Proof.
  apply (sanitize_markdown_clean
           (VStr ("a" ++ String (ascii_of_nat 13) " b")));
    reflexivity.
Defined.

Lemma escape_pipes_from (s : string) :
  forall after, pipes_escaped_from after (escape_pipes s) = true.
Proof.
  unfold escape_pipes.
  induction s as [|x r IH]; intros after; [reflexivity|].
  rewrite replace_char_cons. destruct (Ascii.eqb pipe x) eqn:E.
  - cbn [String.append pipes_escaped_from]. rewrite IH. reflexivity.
  - cbn [pipes_escaped_from]. rewrite Ascii.eqb_sym, E, IH. reflexivity.
Qed.

Lemma escape_pipes_length (s : string) :
  String.length (escape_pipes s) = (String.length s + count_char pipe s)%nat.
Proof.
  unfold escape_pipes.
  induction s as [|x r IH]; [reflexivity|].
  rewrite replace_char_cons. cbn [count_char String.length].
  destruct (Ascii.eqb pipe x); cbn [String.append String.length];
    rewrite IH; lia.
Qed.

Lemma count_char_absent (c : ascii) (s : string) :
  count_char c s = 0%nat -> contains (String c "") s = false.
Proof.
  induction s as [|x r IH]; [reflexivity|].
  cbn [count_char]. rewrite contains_char_cons.
  destruct (Ascii.eqb c x); [discriminate|]. exact IH.
Qed.

(** X17: the cell escaping of lines 188-190 puts a backslash before every
    [|]: in the result each [|] follows a backslash; the result is longer
    than the field by the number of its [|]; a field without [|] is
    returned as it is. *)
Theorem escape_pipes_escapes (s : string) :
  pipes_escaped (escape_pipes s) = true
  /\ String.length (escape_pipes s)
     = (String.length s + count_char pipe s)%nat
  /\ (count_char pipe s = 0%nat -> escape_pipes s = s).
Proof.
  split; [apply escape_pipes_from|].
  split; [apply escape_pipes_length|].
  intros H. apply replace_absent, count_char_absent, H.
Qed.

Lemma escape_pipes_escapes_witness :
  escape_pipes "Study A" = "Study A".
Proof.
  apply (escape_pipes_escapes "Study A"). reflexivity.
Defined.

Lemma lstrip_with_all (p : ascii -> bool) (s : string) :
  all_chars p s = true -> lstrip_with p s = "".
Proof.
  induction s as [|c r IH]; [reflexivity|].
  cbn [all_chars lstrip_with]. intros H.
  apply andb_true_iff in H. destruct H as [Hc Hr].
  rewrite Hc. apply IH, Hr.
Qed.

Lemma lstrip_with_app (p : ascii -> bool) (s t : string) :
  lstrip_with p (s ++ t)
  = match lstrip_with p s with
    | "" => lstrip_with p t
    | x => (x ++ t)%string
    end.
Proof.
  induction s as [|c r IH]; [reflexivity|].
  cbn [String.append lstrip_with].
  destruct (p c); [exact IH | reflexivity].
Qed.

Lemma int_strip_around (pre s post : string) :
  all_blank pre = true -> all_blank post = true ->
  int_strip (pre ++ s ++ post) = int_strip s.
Proof.
  unfold int_strip, all_blank. intros Hpre Hpost.
  rewrite (lstrip_with_blanks _ _ _ Hpre), lstrip_with_app.
  destruct (lstrip_with is_int_space s) as [|c r].
  - rewrite (lstrip_with_all _ _ Hpost). reflexivity.
  - apply rstrip_with_blanks, Hpost.
Qed.

Lemma rstrip_with_head (p : ascii -> bool) (c : ascii) (rest : string) :
  p c = false -> exists r, rstrip_with p (String c rest) = String c r.
Proof.
  intros H. cbn [rstrip_with].
  destruct (rstrip_with p rest); [rewrite H|]; eauto.
Qed.

(** A character that [str.strip] removes is no sign, no digit and no
    underscore. *)
Lemma space_not_numeric (c : ascii) :
  is_space c = true ->
  Ascii.eqb c "+" = false /\ Ascii.eqb c "-" = false
  /\ digit_val c = None /\ Ascii.eqb c "_" = false.
Proof.
  destruct c as [b0 b1 b2 b3 b4 b5 b6 b7].
  destruct b0, b1, b2, b3, b4, b5, b6, b7; intros H;
    try discriminate H; repeat split.
Qed.

(** X18: the blanks that [int] skips (tab, line feed, vertical tab, form
    feed, carriage return, space, and the characters 133 and 160) before
    and after a year do not change the sort key.  A year that begins with
    any other character that [str.strip] would remove (the separators
    28-31) cannot be read and has key 0. *)
Theorem sort_key_ignores_int_blanks (r r' : row) (pre s post : string) :
  (all_blank pre = true -> all_blank post = true ->
   year r = VStr (pre ++ s ++ post) -> year r' = VStr s ->
   sort_key r = sort_key r')
  /\ (forall c rest,
        is_space c = true -> is_int_space c = false ->
        year r = VStr (String c rest) -> sort_key r = 0%Z).
Proof.
  split.
  - intros Hpre Hpost Hy Hy'. rewrite !sort_key_parsed, Hy, Hy'.
    cbn [py_int]. unfold int_of_str.
    rewrite (int_strip_around _ _ _ Hpre Hpost). reflexivity.
  - intros c rest Hs Hi Hy. rewrite sort_key_parsed, Hy.
    cbn [py_int]. unfold int_of_str, int_strip.
    cbn [lstrip_with]. rewrite Hi.
    destruct (rstrip_with_head is_int_space c rest Hi) as [x ->].
    destruct (space_not_numeric c Hs) as (Hp & Hm & Hd & Hu).
    rewrite Hp, Hm. unfold int_of_digits. cbn [parse_digits].
    rewrite Hd, Hu. reflexivity.
Qed.

Lemma sort_key_ignores_int_blanks_witness :
  sort_key (row_of_year (VStr (" " ++ "2020" ++ newline)))
  = sort_key (row_of_year (VStr "2020"))
  /\ sort_key (row_of_year (VStr (String (ascii_of_nat 28) "2020"))) = 0%Z.
Proof.
  split.
  - apply (sort_key_ignores_int_blanks
             (row_of_year (VStr (" " ++ "2020" ++ newline)))
             (row_of_year (VStr "2020")) " " "2020" newline);
      reflexivity.
  - apply (proj2 (sort_key_ignores_int_blanks
                    (row_of_year (VStr (String (ascii_of_nat 28) "2020")))
                    (row_of_year (VStr "")) "" "" "")
                 (ascii_of_nat 28) "2020");
      reflexivity.
Defined.

(* ----------------------------------------------------------------- *)
(** ** [dict_safe_get] *)

(** X2: [dict_safe_get] returns the value found by following the keys
    through nested dicts when that value is present (truthy) and is not
    itself a dict; in every other case (the start is no dict, a key is
    missing, a level is no dict, the value is null, empty, zero or a dict)
    it returns the default. *)
Theorem dict_safe_get_reads_path (d : value) (keys : list string) (dflt : value) :
  dict_safe_get d keys dflt
  = (if isinstance_dict d
        && truthy (at_path d keys)
        && negb (isinstance_dict (at_path d keys))
     then at_path d keys else dflt).
Proof.
  unfold dict_safe_get. destruct (isinstance_dict d) eqn:E.
  - cbn [andb]. apply dict_safe_get_loop_path.
  - cbn [andb]. apply dict_safe_get_loop_empty.
Qed.

(* ----------------------------------------------------------------- *)
(** ** Contributors *)

Lemma credit_name_spec (c name : value) :
  credit_name c = Ok name -> name = at_path c ["credit-name"; "value"].
Proof.
  unfold credit_name. intros H. inv_bind H a Ha.
  exact (get_or_get _ _ _ _ _ Ha H).
Qed.

Lemma collect_names_spec (cs : list value) :
  forall acc out,
    collect_names cs acc = Ok out -> out = acc ++ credit_names cs.
Proof.
  unfold credit_names.
  induction cs as [|c rest IH]; intros acc out H.
  - inversion H. cbn. rewrite app_nil_r. reflexivity.
  - cbn [collect_names] in H. inv_bind H name Hn.
    apply credit_name_spec in Hn. subst name.
    apply IH in H. subst out. cbn [map filter].
    destruct (truthy (at_path c ["credit-name"; "value"]));
      [rewrite <- app_assoc|]; reflexivity.
Qed.

Lemma collect_names_raises (cs : list value) :
  forall acc e, collect_names cs acc = Raise e -> e = AttributeError.
Proof.
  induction cs as [|c rest IH]; intros acc e H; [discriminate H|].
  cbn [collect_names] in H.
  destruct (credit_name c) as [name|x] eqn:Hn; cbn [bind] in H.
  - eapply IH, H.
  - inversion H; subst x. clear H. unfold credit_name in Hn.
    destruct c; try (cbn in Hn; congruence).
    cbn [py_get] in Hn.
    destruct (dict_lookup d "credit-name") as [a|]; cbn [bind] in Hn.
    + destruct (py_or a (VDict [])); cbn in Hn; try congruence.
      destruct (dict_lookup d0 "value"); discriminate Hn.
    + discriminate Hn.
Qed.

Lemma collect_names_not_dict (cs : list value) :
  Exists (fun c => isinstance_dict c = false) cs ->
  forall acc, is_ok (collect_names cs acc) = false.
Proof.
  induction 1 as [c rest Hc | c rest _ IH]; intros acc;
    cbn [collect_names].
  - destruct c; try reflexivity. discriminate Hc.
  - destruct (credit_name c); [apply IH | reflexivity].
Qed.

Lemma contributors_iterated (work a b : value) (cs : list value) :
  py_get work "contributors" (VDict []) = Ok a ->
  py_get (py_or a (VDict [])) "contributor" (VList []) = Ok b ->
  py_iter (py_or b (VList [])) = Ok cs ->
  cs = contributors_of work \/ exists s rest, cs = VStr s :: rest.
Proof.
  intros Ha Hb Hes.
  destruct (py_get_dict _ _ _ _ Ha) as [d ->].
  unfold contributors_of. cbn [at_path]. simpl in Ha.
  destruct (dict_lookup d "contributors") as [a'|];
    inversion Ha; subst a; clear Ha.
  - unfold py_or in Hb. destruct (truthy a') eqn:T.
    + destruct (py_get_dict _ _ _ _ Hb) as [d' ->].
      simpl in Hb.
      destruct (dict_lookup d' "contributor") as [x|];
        inversion Hb; subst b; clear Hb.
      * case_value x; cbn in Hes; inversion Hes; subst; auto.
        -- right. eauto.
        -- right. destruct p as [k v]. simpl. eauto.
      * simpl in Hes. inversion Hes. left. reflexivity.
    + simpl in Hb. inversion Hb; subst b. simpl in Hes. inversion Hes.
      left. change (match a' with
                    | VDict d0 =>
                        match dict_lookup d0 "contributor" with
                        | Some x => x
                        | None => VNone
                        end
                    | _ => VNone
                    end) with (at_path a' ["contributor"]).
      rewrite (at_path_absent a' _ [] T). reflexivity.
  - simpl in Hb. inversion Hb; subst b. simpl in Hes. inversion Hes.
    left. reflexivity.
Qed.

Lemma extract_contributors_spec (work : value) (out : list value) :
  extract_contributors work = Ok out ->
  out = credit_names (contributors_of work).
Proof.
  unfold extract_contributors.
  destruct (truthy work) eqn:T; cbn [negb]; intros H.
  - inv_bind H a Ha. inv_bind H b Hb. inv_bind H cs Hcs.
    destruct (contributors_iterated _ _ _ _ Ha Hb Hcs)
      as [-> | (s & rest & ->)].
    + apply collect_names_spec in H. exact H.
    + discriminate H.
  - inversion H. unfold contributors_of.
    rewrite at_path_absent by exact T. reflexivity.
Qed.

Lemma collect_names_total (cs : list value) :
  forallb wf_contributor cs = true ->
  forall acc, is_ok (collect_names cs acc) = true.
Proof.
  induction cs as [|c rest IH]; cbn [forallb collect_names]; intros H acc.
  - reflexivity.
  - apply andb_true_iff in H. destruct H as [Hc Hrest].
    unfold wf_contributor in Hc. apply andb_true_iff in Hc.
    destruct Hc as [Hd Hn].
    destruct c as [| | | | | |d]; try discriminate Hd.
    unfold credit_name. rewrite py_get_dict_ok. cbn [bind].
    destruct (absent_or_dict _ Hn) as [u ->]. rewrite py_get_dict_ok.
    cbn [bind]. apply IH, Hrest.
Qed.

Lemma extract_contributors_total (work : value) :
  wf_contributors work = true -> is_ok (extract_contributors work) = true.
Proof.
  unfold wf_contributors, extract_contributors.
  destruct (truthy work) eqn:T; cbn [negb orb]; intros H; [|reflexivity].
  repeat (apply andb_true_iff in H; destruct H as [H ?]).
  destruct work as [| | | | | |d]; try discriminate H.
  cbn [py_get at_path] in *.
  destruct (dict_lookup d "contributors") as [a|].
  - cbn [bind]. cbn [at_path] in *. unfold absent_or in H1. unfold py_or.
    destruct (truthy a) eqn:Ta; cbn [negb orb] in H1.
    + destruct a as [| | | | | |x]; try discriminate H1.
      cbn [py_get].
      destruct (dict_lookup x "contributor") as [b|]; cbn [bind].
      * unfold absent_or in H0.
        destruct (truthy b) eqn:Tb; cbn [negb orb] in H0.
        -- destruct b; try discriminate H0. cbn [py_iter bind].
           apply collect_names_total, H0.
        -- reflexivity.
      * reflexivity.
    + reflexivity.
  - reflexivity.
Qed.

(** X4: whenever [extract_contributors] returns, it returns the credit
    names of the contributor entries in list order, without the absent
    (null or empty) ones; and it returns on every detail object whose
    contributor entries are objects with an object or nothing under
    [credit-name]. *)
Theorem extract_contributors_names (work : value) :
  (forall out,
      extract_contributors work = Ok out ->
      out = credit_names (contributors_of work))
  /\ (wf_contributors work = true ->
      extract_contributors work = Ok (credit_names (contributors_of work))).
Proof.
  split; [apply extract_contributors_spec|].
  intros H. apply extract_contributors_total in H.
  destruct (extract_contributors work) as [out|] eqn:E; [|discriminate H].
  rewrite (extract_contributors_spec _ _ E). reflexivity.
Qed.

Lemma extract_contributors_names_witness :
  extract_contributors
    (VDict [("contributors",
             VDict [("contributor",
                     VList [VDict [("credit-name", VDict [("value", VStr "A")])];
                            VDict [("credit-name", VNone)];
                            VDict [("credit-name", VDict [("value", VStr "B")])]])])])
  = Ok [VStr "A"; VStr "B"].
Proof.
  apply (extract_contributors_names
           (VDict [("contributors",
             VDict [("contributor",
                     VList [VDict [("credit-name", VDict [("value", VStr "A")])];
                            VDict [("credit-name", VNone)];
                            VDict [("credit-name", VDict [("value", VStr "B")])]])])])).
  reflexivity.
Defined.

(** X5: a contributor list that holds an entry that is no object (a null,
    a string, a number) makes [extract_contributors] raise
    [AttributeError], wherever the entry stands and whatever the other
    entries are. *)
Theorem extract_contributors_entry_not_dict
        (d x : list (string * value)) (cs : list value) :
  dict_lookup d "contributors" = Some (VDict x) ->
  dict_lookup x "contributor" = Some (VList cs) ->
  Exists (fun c => isinstance_dict c = false) cs ->
  extract_contributors (VDict d) = Raise AttributeError.
Proof.
  intros Hd Hx Hcs. unfold extract_contributors.
  destruct d as [|p d']; [discriminate Hd|].
  destruct x as [|q x']; [discriminate Hx|].
  cbn [truthy negb py_get]. rewrite Hd. cbn [bind py_or truthy py_get].
  rewrite Hx. cbn [bind].
  destruct cs as [|c rest]; [inversion Hcs|].
  cbn [py_or truthy py_iter bind].
  pose proof (collect_names_not_dict _ Hcs []) as Hno.
  destruct (collect_names (c :: rest) []) as [out|e] eqn:E;
    [discriminate Hno|].
  apply collect_names_raises in E. subst e. reflexivity.
Qed.

Lemma extract_contributors_entry_not_dict_witness :
  extract_contributors
    (VDict [("contributors",
             VDict [("contributor",
                     VList [VDict [("credit-name", VDict [("value", VStr "A")])];
                            VNone])])])
  = Raise AttributeError.
Proof.
  eapply extract_contributors_entry_not_dict;
    [reflexivity | reflexivity |].
  apply Exists_cons_tl, Exists_cons_hd. reflexivity.
Defined.

(* ----------------------------------------------------------------- *)
(** ** The assembled row *)

Lemma assemble_row_inv (detailed ws : value) (r : row) :
  assemble_row detailed ws = Ok r ->
  exists t names a j y d url,
    row_title detailed ws = Ok t
    /\ row_authors detailed ws = Ok names
    /\ authors_md names = Ok a
    /\ row_journal detailed ws = Ok j
    /\ extract_year detailed ws = Ok y
    /\ extract_doi_and_url detailed = Ok (d, url)
    /\ r = mkRow (match t with "" => "(no title)" | _ => t end)
                 a j y (doi_md d) (final_link d url).
Proof.
  unfold assemble_row. intros H.
  inv_bind H t Ht. inv_bind H names Hn. inv_bind H a Ha.
  inv_bind H j Hj. inv_bind H y Hy. inv_bind H dl Hdl.
  destruct dl as [d url]. inversion H; subst r; clear H.
  exists t, names, a, j, y, d, url. repeat split; assumption.
Qed.

Lemma row_title_sanitized (detailed ws : value) (t : string) :
  row_title detailed ws = Ok t -> exists x, t = sanitize_markdown x.
Proof.
  unfold row_title. intros H. inv_bind H x Hx. inversion H. eauto.
Qed.

Lemma row_journal_sanitized (detailed ws : value) (j : string) :
  row_journal detailed ws = Ok j -> exists x, j = sanitize_markdown x.
Proof.
  unfold row_journal. intros H. inv_bind H x Hx. inversion H. eauto.
Qed.

Lemma final_link_with_doi (d : string) (url : value) :
  d <> "" -> truthy (final_link d url) = true.
Proof.
  intros Hd. unfold final_link.
  destruct (truthy url) eqn:T; cbn [negb andb]; [exact T|].
  destruct d; [congruence | reflexivity].
Qed.

(** X6: every assembled row has a non-empty title (the placeholder
    [(no title)] stands in for an empty one); its DOI cell is empty or the
    markdown link [[d](https://doi.org/d)] of a non-empty DOI [d]; and a
    row with a DOI cell always has a link. *)
Theorem assembled_row_shape (detailed ws : value) (r : row) :
  assemble_row detailed ws = Ok r ->
  title r <> ""
  /\ (doi r = ""
      \/ exists d,
           d <> ""
           /\ doi r = ("[" ++ d ++ "](https://doi.org/" ++ d ++ ")")%string)
  /\ (doi r <> "" -> truthy (link r) = true).
Proof.
  intros H.
  destruct (assemble_row_inv _ _ _ H)
    as (t & names & a & j & y & d & url & _ & _ & _ & _ & _ & _ & ->).
  cbn [title doi link]. split; [|split].
  - destruct t; discriminate.
  - destruct d as [|c d']; [left; reflexivity|].
    right. exists (String c d'). split; [discriminate | reflexivity].
  - intros Hd. apply final_link_with_doi. intros ->. apply Hd. reflexivity.
Qed.

Lemma assembled_row_shape_witness :
  title {| title := "Study A"; authors := ""; journal := ""; year := VStr "";
           doi := "[10.1000/xyz](https://doi.org/10.1000/xyz)";
           link := VStr "https://example.org/xyz" |} <> "".
Proof.
  apply (assembled_row_shape sample_work (VDict [("put-code", VInt 1)])).
  reflexivity.
Defined.

(** X7: in every assembled row the title and the venue hold no line feed
    and no whitespace at either end. *)
Theorem assembled_row_title_venue_clean (detailed ws : value) (r : row) :
  assemble_row detailed ws = Ok r ->
  contains newline (title r) = false
  /\ strip (title r) = title r
  /\ contains newline (journal r) = false
  /\ strip (journal r) = journal r.
Proof.
  intros H.
  destruct (assemble_row_inv _ _ _ H)
    as (t & names & a & j & y & d & url & Ht & _ & _ & Hj & _ & _ & ->).
  cbn [title journal].
  destruct (row_title_sanitized _ _ _ Ht) as [x ->].
  destruct (row_journal_sanitized _ _ _ Hj) as [x' ->].
  split; [|split; [|split]].
  - destruct (sanitize_markdown x) eqn:E; [reflexivity|].
    rewrite <- E. apply sanitize_no_newline.
  - destruct (sanitize_markdown x) eqn:E; [reflexivity|].
    rewrite <- E. apply sanitize_stripped.
  - apply sanitize_no_newline.
  - apply sanitize_stripped.
Qed.

Lemma assembled_row_title_venue_clean_witness :
  contains newline "Study A" = false /\ strip "Study A" = "Study A".
Proof.
  destruct (assembled_row_title_venue_clean
              untidy_work (VDict [("put-code", VInt 1)]) _ eq_refl)
    as (H1 & H2 & _ & _).
  split; [exact H1 | exact H2].
Defined.

(* ----------------------------------------------------------------- *)
(** ** Precedence of the detailed work, and the author fallback *)

Lemma dict_lookup_nil (k : string) : dict_lookup [] k = None.
Proof. reflexivity. Qed.

Ltac chain_simpl2 :=
  cbv beta iota in *;
  unfold py_or, dict_safe_get in *;
  cbn [bind py_get py_iter collect_names credit_name truthy negb orb andb
       Z.eqb at_path lacks_path isinstance_dict isinstance_str
       dict_safe_get_loop] in *;
  rewrite ?dict_lookup_nil in *.

Ltac chain2 :=
  repeat first [progress chain_simpl2 | once chain_step];
  try reflexivity; try congruence.

Lemma extract_title_present (detail : value) :
  truthy (at_path detail title_path) = true ->
  extract_title detail = Ok (at_path detail title_path).
Proof.
  unfold extract_title, title_path. intros H. chain.
Qed.

Lemma extract_journal_present (detail : value) :
  truthy (at_path detail journal_path) = true ->
  extract_journal detail = Ok (at_path detail journal_path).
Proof.
  unfold extract_journal, journal_path. intros H. chain.
Qed.

Lemma year_of_work_present (detail : value) :
  truthy (at_path detail year_path) = true ->
  year_of_work detail = Ok (Some (at_path detail year_path)).
Proof.
  unfold year_of_work, year_path. intros H. chain.
Qed.

(** X9: a value present in the detailed work takes precedence: the year is
    the detail's year and the title and venue are the detail's, sanitised,
    whatever the summary holds; the summary is not looked at, so even a
    summary of an unexpected shape does no harm. *)
Theorem detail_takes_precedence (detail ws : value) :
  (truthy (at_path detail title_path) = true ->
     row_title detail ws
     = Ok (sanitize_markdown (at_path detail title_path)))
  /\ (truthy (at_path detail journal_path) = true ->
      row_journal detail ws
      = Ok (sanitize_markdown (at_path detail journal_path)))
  /\ (truthy (at_path detail year_path) = true ->
      extract_year detail ws = Ok (at_path detail year_path)).
Proof.
  split; [|split]; intros H.
  - unfold row_title. rewrite (extract_title_present _ H). cbn [bind].
    unfold py_or. rewrite H, H. reflexivity.
  - unfold row_journal. rewrite (extract_journal_present _ H). cbn [bind].
    unfold py_or. rewrite H. reflexivity.
  - unfold extract_year. rewrite (year_of_work_present _ H). reflexivity.
Qed.

Lemma detail_takes_precedence_witness :
  row_title sample_work (VStr "not a summary") = Ok "Study A".
Proof.
  apply (detail_takes_precedence sample_work (VStr "not a summary")).
  reflexivity.
Defined.

Lemma extract_contributors_lacking (detail : value) :
  lacks_path detail ["contributors"; "contributor"] = true ->
  extract_contributors detail = Ok [].
Proof.
  unfold extract_contributors. intros H. chain2.
Qed.

(** X8: when the detailed work yields no contributor name
    ([extract_contributors] returns the empty list: no contributor list,
    an empty one, or entries without a credit name), the authors come from
    the summary: its [author] when that is a non-empty string, else its
    [credit-name] when that is one; a present [author] that is no string
    yields no author and keeps [credit-name] from being looked at; with
    neither, the list is empty. *)
Theorem authors_fall_back_to_summary (detail ws : value) :
  extract_contributors detail = Ok [] ->
  (forall s, s <> "" -> at_path ws ["author"] = VStr s ->
             row_authors detail ws = Ok [VStr s])
  /\ (forall s, s <> "" -> lacks_path ws ["author"] = true ->
                at_path ws ["credit-name"] = VStr s ->
                row_authors detail ws = Ok [VStr s])
  /\ (truthy (at_path ws ["author"]) = true ->
      isinstance_str (at_path ws ["author"]) = false ->
      row_authors detail ws = Ok [])
  /\ (isinstance_dict ws = true ->
      lacks_path ws ["author"] = true ->
      lacks_path ws ["credit-name"] = true ->
      row_authors detail ws = Ok []).
Proof.
  intros Hd. unfold row_authors.
  rewrite Hd. cbn [bind]. clear Hd.
  split; [|split; [|split]].
  - intros s Hs H. chain2.
  - intros s Hs Ha H. chain2.
  - intros Ht Hi. chain2.
  - intros Hi Ha Hc. chain2.
Qed.

Lemma authors_fall_back_to_summary_witness :
  row_authors
    (VDict [("contributors",
             VDict [("contributor", VList [VDict [("credit-name", VNone)]])])])
    (VDict [("author", VStr "J. Doe")])
  = Ok [VStr "J. Doe"].
Proof.
  apply (proj1 (authors_fall_back_to_summary
                  (VDict [("contributors",
                           VDict [("contributor",
                                   VList [VDict [("credit-name", VNone)]])])])
                  (VDict [("author", VStr "J. Doe")]) eq_refl));
    [discriminate | reflexivity].
Defined.

(* ----------------------------------------------------------------- *)
(** ** What a run does *)

Lemma pstate_same (st : pstate) :
  st = mkState (trace st ++ []) (requests st + count is_fetch_work []).
Proof.
  destruct st as [tr n]. cbn. rewrite app_nil_r, Nat.add_0_r. reflexivity.
Qed.

Lemma group_body_effect (w : world) (rows : list row) (g : value) (st : pstate) :
  loop_effect st rows 1 (group_body w rows g st).
Proof.
  unfold loop_effect.
  destruct (select_summary g) as [[[ws pc]|]|x] eqn:Hs.
  - destruct (work_reply w (requests st) pc) as [js|e] eqn:Hf.
    + rewrite (group_body_fetched _ _ _ _ _ _ _ Hs Hf).
      destruct (assemble_row (py_or js (VDict [])) ws) as [r|y].
      * exists [EFetchWork pc; ESleep]. cbn.
        rewrite Nat.add_1_r. repeat split; try lia.
        exists [r]. repeat split.
      * exists [EFetchWork pc]. cbn.
        rewrite Nat.add_1_r. repeat split; lia.
    + rewrite (group_body_fetch_failed _ _ _ _ _ _ _ Hs Hf).
      exists [EFetchWork pc; EWarn pc e]. cbn.
      rewrite Nat.add_1_r. repeat split; try lia.
      exists []. rewrite app_nil_r. repeat split.
  - rewrite (group_body_skip _ _ _ _ Hs).
    exists []. cbn [fst snd]. split; [apply pstate_same|].
    repeat split; try (cbn; lia).
    exists []. rewrite app_nil_r. repeat split.
  - unfold group_body, bindP, lift. rewrite Hs.
    exists []. cbn [fst snd]. split; [apply pstate_same|].
    repeat split; cbn; lia.
Qed.

Lemma forallb_app_true {A : Type} (f : A -> bool) (a b : list A) :
  forallb f a = true -> forallb f b = true -> forallb f (a ++ b) = true.
Proof.
  intros Ha Hb. rewrite forallb_app, Ha, Hb. reflexivity.
Qed.

Lemma for_groups_effect (w : world) (gs : list value) :
  forall rows st, loop_effect st rows (List.length gs) (for_groups w gs rows st).
Proof.
  induction gs as [|g rest IH]; intros rows st.
  - cbn [for_groups]. unfold ret, loop_effect.
    exists []. cbn [fst snd]. split; [apply pstate_same|].
    repeat split; try (cbn; lia).
    exists []. rewrite app_nil_r. repeat split.
  - cbn [for_groups]. unfold bindP.
    destruct (group_body_effect w rows g st) as (evs & Hst & Hev & Hn & Hr).
    destruct (group_body w rows g st) as [[rows1|x] st1];
      cbn [fst snd] in Hst, Hr.
    + destruct Hr as (more & -> & Hlen & Hacc).
      destruct (IH (rows ++ more) st1) as (evs' & Hst' & Hev' & Hn' & Hr').
      exists (evs ++ evs'). subst st1. cbn [trace requests] in Hst'.
      rewrite Hst'. rewrite !count_app.
      split; [rewrite <- app_assoc; f_equal; lia|].
      split; [apply forallb_app_true; assumption|].
      split; [cbn [List.length]; lia|].
      destruct (fst (for_groups w rest (rows ++ more)
                       (mkState (trace st ++ evs)
                                (requests st + count is_fetch_work evs))))
        as [rows'|]; [|exact I].
      destruct Hr' as (more' & -> & Hlen' & Hacc').
      exists (more ++ more'). rewrite length_app, app_assoc.
      repeat split; lia.
    + exists evs. cbn [fst snd]. repeat split; try assumption.
      cbn [List.length]. lia.
Qed.

Lemma loop_events_count (evs : list event) :
  forallb is_loop_event evs = true -> count is_write evs = 0%nat.
Proof.
  induction evs as [|ev evs IH]; [reflexivity|].
  cbn [forallb]. intros H. apply andb_true_iff in H. destruct H as [He H].
  unfold count in *. cbn [filter].
  destruct ev; try discriminate He; cbn [is_write]; exact (IH H).
Qed.

(** How [main] ends, case by case. *)
Lemma main_cases (w : world) :
  (exists e, record_reply w = Raise e
             /\ main w = mkOutcome 1 None [EFetchRecord; EFatal e])
  \/ (exists record x,
         record_reply w = Ok record
         /\ get_groups_list record = Raise x
         /\ main w = mkOutcome 1 (Some x) [EFetchRecord])
  \/ (exists record gs,
         record_reply w = Ok record
         /\ get_groups_list record = Ok gs
         /\ match for_groups w gs [] (mkState [EFetchRecord] 0) with
            | (Ok rows, st) =>
                main w = mkOutcome 0 None (trace st ++ [EWrite (sort_rows rows)])
            | (Raise x, st) => main w = mkOutcome 1 (Some x) (trace st)
            end).
Proof.
  destruct (record_reply w) as [record|e] eqn:Hr.
  - right. destruct (get_groups_list record) as [gs|x] eqn:Hg.
    + right. exists record, gs.
      split; [reflexivity|]. split; [exact Hg|].
      destruct (for_groups w gs [] (mkState [EFetchRecord] 0))
        as [[rows|x] st] eqn:Hl;
        unfold main, after_record, bindP, lift, emit;
        rewrite Hr, Hg, Hl; reflexivity.
    + left. exists record, x.
      split; [reflexivity|]. split; [exact Hg|].
      unfold main, after_record, bindP, lift. rewrite Hr, Hg. reflexivity.
  - left. exists e. split; [reflexivity|].
    unfold main. rewrite Hr. reflexivity.
Qed.

(** X10: no work request is made twice: a run makes at most one work
    request per group of the record, whether it ends normally or not, and
    none at all when the record fetch fails. *)
Theorem at_most_one_request_per_group (w : world) :
  (forall record gs,
      record_reply w = Ok record ->
      get_groups_list record = Ok gs ->
      (count is_fetch_work (events (main w)) <= List.length gs)%nat)
  /\ (forall e,
        record_reply w = Raise e ->
        count is_fetch_work (events (main w)) = 0%nat).
Proof.
  split.
  - intros record gs Hr Hg.
    destruct (main_cases w) as [(e & He & _) | [(r & x & Hr' & Hg' & _) |
                                (r & gs' & Hr' & Hg' & Hm)]]; try congruence.
    assert (r = record) by congruence. subst r.
    assert (gs' = gs) by congruence. subst gs'.
    destruct (for_groups_effect w gs [] (mkState [EFetchRecord] 0))
      as (evs & Hst & _ & Hn & _).
    destruct (for_groups w gs [] (mkState [EFetchRecord] 0)) as [[rows|x] st];
      cbn [snd] in Hst; subst st; rewrite Hm; cbn [events trace];
      rewrite ?count_app; unfold count at 1; cbn; unfold count in *; cbn; lia.
  - intros e He. unfold main. rewrite He. reflexivity.
Qed.

Lemma at_most_one_request_per_group_witness :
  (count is_fetch_work (events (main flaky_world)) <= 2)%nat.
Proof.
  apply (proj1 (at_most_one_request_per_group flaky_world) sample_record
               [sample_group 123; sample_group 124]); reflexivity.
Defined.

(** X11: in a run that ends with status 0 the events are: the record
    request, then loop events, then the one write.  Every work request
    ended in a written row or in a warning, and the pause was taken once
    per written row (never after a failed request). *)
Theorem run_accounting (w : world) (record : value) (gs : list value) :
  record_reply w = Ok record ->
  get_groups_list record = Ok gs ->
  exit_status (main w) = 0%Z ->
  exists evs rows,
    events (main w) = EFetchRecord :: evs ++ [EWrite (sort_rows rows)]
    /\ forallb is_loop_event evs = true
    /\ count is_sleep evs = List.length rows
    /\ count is_fetch_work evs = (List.length rows + count is_warn evs)%nat
    /\ (List.length rows <= List.length gs)%nat.
Proof.
  intros Hr Hg Hexit.
  destruct (main_cases w) as [(e & He & _) | [(r & x & Hr' & Hg' & _) |
                              (r & gs' & Hr' & Hg' & Hm)]]; try congruence.
  assert (r = record) by congruence. subst r.
  assert (gs' = gs) by congruence. subst gs'.
  destruct (for_groups_effect w gs [] (mkState [EFetchRecord] 0))
    as (evs & Hst & Hev & Hn & Hrows).
  destruct (for_groups w gs [] (mkState [EFetchRecord] 0)) as [[rows|x] st];
    cbn [fst snd] in Hst, Hrows; subst st.
  - destruct Hrows as (more & Hmore & Hlen & Hacc). cbn [app] in Hmore.
    subst more. exists evs, rows. rewrite Hm. cbn [events trace app].
    repeat split; try assumption; lia.
  - rewrite Hm in Hexit. discriminate Hexit.
Qed.

Lemma run_accounting_witness :
  exists evs rows,
    events (main flaky_world) = EFetchRecord :: evs ++ [EWrite (sort_rows rows)]
    /\ forallb is_loop_event evs = true
    /\ count is_sleep evs = List.length rows
    /\ count is_fetch_work evs = (List.length rows + count is_warn evs)%nat
    /\ (List.length rows <= 2)%nat.
Proof.
  apply (run_accounting flaky_world sample_record
                        [sample_group 123; sample_group 124]);
    reflexivity.
Defined.

(** X12: the file is written once, as the last act of a run that ends with
    status 0, and not at all in a run that ends with status 1: a failed
    record fetch or an unhandled exception, in whatever group it occurs,
    leaves no partial file.  A run has no other exit status. *)
Theorem written_once_or_never (w : world) :
  (exit_status (main w) = 0%Z
   /\ uncaught (main w) = None
   /\ count is_write (events (main w)) = 1%nat
   /\ exists evs rows, events (main w) = evs ++ [EWrite rows])
  \/ (exit_status (main w) = 1%Z
      /\ count is_write (events (main w)) = 0%nat).
Proof.
  destruct (main_cases w) as [(e & _ & ->) | [(r & x & _ & _ & ->) |
                              (r & gs & _ & _ & Hm)]].
  - right. split; reflexivity.
  - right. split; reflexivity.
  - destruct (for_groups_effect w gs [] (mkState [EFetchRecord] 0))
      as (evs & Hst & Hev & _ & _).
    apply loop_events_count in Hev.
    destruct (for_groups w gs [] (mkState [EFetchRecord] 0)) as [[rows|x] st];
      cbn [snd] in Hst; subst st; rewrite Hm; cbn [exit_status uncaught events trace].
    + left. repeat split.
      * rewrite !count_app, Hev. reflexivity.
      * eauto.
    + right. split; [reflexivity|].
      rewrite count_app, Hev. reflexivity.
Qed.

(* ----------------------------------------------------------------- *)
(** ** More on the sort *)

Lemma insert_row_first (r : row) (l : list row) :
  Forall (key_ge r) l -> insert_row r l = r :: l.
Proof.
  destruct l as [|x t]; [reflexivity|].
  intros H. inversion H as [|? ? Hx _]; subst. cbn [insert_row].
  unfold key_ge in Hx. apply Z.leb_le in Hx. rewrite Hx. reflexivity.
Qed.

Lemma sort_rows_fixed (rows : list row) :
  StronglySorted key_ge rows -> sort_rows rows = rows.
Proof.
  induction 1 as [|r t Hs IH Hr]; [reflexivity|].
  cbn [sort_rows fold_right]. fold (sort_rows t). rewrite IH.
  apply insert_row_first, Hr.
Qed.

(** X14: rows that already stand in descending order of their keys are
    left as they are, so sorting a second time changes nothing. *)
Theorem sort_rows_keeps_sorted (rows : list row) :
  (StronglySorted key_ge rows -> sort_rows rows = rows)
  /\ sort_rows (sort_rows rows) = sort_rows rows.
Proof.
  split; [apply sort_rows_fixed|].
  apply sort_rows_fixed, sort_rows_sorted.
Qed.

Lemma row_pair_sorted : StronglySorted key_ge [row_2020; row_2019].
Proof.
  repeat constructor. unfold key_ge. vm_compute. discriminate.
Defined.

Lemma sort_rows_keeps_sorted_witness :
  sort_rows [row_2020; row_2019] = [row_2020; row_2019].
Proof.
  apply (proj1 (sort_rows_keeps_sorted [row_2020; row_2019])).
  exact row_pair_sorted.
Defined.

Lemma has_key_own (r : row) : has_key (sort_key r) r = true.
Proof. unfold has_key. apply Z.eqb_refl. Qed.

(** The first row of a sorted list has the largest key of the list. *)
Lemma sorted_head_max (a : row) (t : list row) (y : row) :
  StronglySorted key_ge (a :: t) -> In y (a :: t) ->
  (sort_key y <= sort_key a)%Z.
Proof.
  intros Hs [-> | Hy]; [lia|].
  apply StronglySorted_inv in Hs. destruct Hs as [_ Hf].
  rewrite Forall_forall in Hf. exact (Hf y Hy).
Qed.

Lemma sorted_filters_unique (l1 : list row) :
  forall l2,
    StronglySorted key_ge l1 -> StronglySorted key_ge l2 ->
    (forall k, filter (has_key k) l1 = filter (has_key k) l2) ->
    l1 = l2.
Proof.
  induction l1 as [|a t1 IH]; intros l2 H1 H2 Hf.
  - destruct l2 as [|b t2]; [reflexivity|].
    specialize (Hf (sort_key b)). cbn [filter] in Hf.
    rewrite has_key_own in Hf. discriminate Hf.
  - destruct l2 as [|b t2].
    + specialize (Hf (sort_key a)). cbn [filter] in Hf.
      rewrite has_key_own in Hf. discriminate Hf.
    + assert (Hab : sort_key a = sort_key b).
      { assert (Ha : In a (b :: t2)).
        { assert (Hin : In a (filter (has_key (sort_key a)) (a :: t1)))
            by (apply filter_In; split;
                [left; reflexivity | apply has_key_own]).
          rewrite (Hf (sort_key a)) in Hin.
          apply filter_In in Hin. exact (proj1 Hin). }
        assert (Hb : In b (a :: t1)).
        { assert (Hin : In b (filter (has_key (sort_key b)) (b :: t2)))
            by (apply filter_In; split;
                [left; reflexivity | apply has_key_own]).
          rewrite <- (Hf (sort_key b)) in Hin.
          apply filter_In in Hin. exact (proj1 Hin). }
        pose proof (sorted_head_max _ _ _ H2 Ha).
        pose proof (sorted_head_max _ _ _ H1 Hb). lia. }
      pose proof (Hf (sort_key a)) as E. cbn [filter] in E.
      rewrite has_key_own in E. rewrite Hab in E at 2.
      rewrite has_key_own in E. inversion E as [[Heq Et]]. subst b.
      f_equal. apply IH.
      * apply StronglySorted_inv in H1. exact (proj1 H1).
      * apply StronglySorted_inv in H2. exact (proj1 H2).
      * intros k. specialize (Hf k). cbn [filter] in Hf.
        destruct (has_key k a); [inversion Hf; reflexivity | exact Hf].
Qed.

(** X15: the sorted order is determined by what the sort promises: any
    arrangement of the rows in which the keys never increase and in which
    the rows of each key stand in their order of assembly is the list
    [sort_rows] computes. *)
Theorem stable_descending_order_unique (rows l : list row) :
  StronglySorted key_ge l ->
  (forall k, filter (has_key k) l = filter (has_key k) rows) ->
  l = sort_rows rows.
Proof.
  intros Hs Hf. apply sorted_filters_unique.
  - exact Hs.
  - apply sort_rows_sorted.
  - intros k. rewrite sort_rows_stable. apply Hf.
Qed.

Lemma stable_descending_order_unique_witness :
  [row_2020; row_2019] = sort_rows [row_2020; row_2019].
Proof.
  apply stable_descending_order_unique;
    [exact row_pair_sorted | intros k; reflexivity].
Defined.

(* ----------------------------------------------------------------- *)
(** ** Groups and records at the edges *)

Lemma select_summary_none (d : list (string * value)) :
  lacks_path (VDict d) ["work-summary"] = true ->
  select_summary (VDict d) = Ok None.
Proof.
  unfold select_summary. intros H. cbn [py_get lacks_path] in *.
  destruct (dict_lookup d "work-summary") as [x|] eqn:E.
  - destruct d as [|p d']; [discriminate E|].
    cbn [truthy negb orb] in H. rewrite orb_false_r in H.
    apply negb_true_iff in H.
    cbn [bind]. unfold py_or. rewrite H. reflexivity.
  - reflexivity.
Qed.

(** X16: a group is passed over without any request and without any event
    when it has no summary (the key is missing, null or an empty list), or
    when its first summary is absent or has no put-code (missing or null).
    Any other put-code leads to a request, a zero or an empty string
    included: the test is against null, not for truth. *)
Theorem group_passed_over (w : world) (rows : list row) (st : pstate)
        (d : list (string * value)) :
  (lacks_path (VDict d) ["work-summary"] = true ->
     group_body w rows (VDict d) st = (Ok rows, st))
  /\ (forall ws rest,
        dict_lookup d "work-summary" = Some (VList (ws :: rest)) ->
        truthy ws = false ->
        group_body w rows (VDict d) st = (Ok rows, st))
  /\ (forall dws rest,
        dict_lookup d "work-summary" = Some (VList (VDict dws :: rest)) ->
        dict_lookup dws "put-code" = None
        \/ dict_lookup dws "put-code" = Some VNone ->
        group_body w rows (VDict d) st = (Ok rows, st))
  /\ (forall dws rest pc,
        dict_lookup d "work-summary" = Some (VList (VDict dws :: rest)) ->
        dict_lookup dws "put-code" = Some pc ->
        pc <> VNone ->
        select_summary (VDict d) = Ok (Some (VDict dws, pc))
        /\ exists evs,
             trace (snd (group_body w rows (VDict d) st))
             = trace st ++ EFetchWork pc :: evs).
Proof.
  split; [|split; [|split]].
  - intros H. apply group_body_skip, select_summary_none, H.
  - intros ws rest Hd Hws. apply group_body_skip.
    unfold select_summary. cbn [py_get]. rewrite Hd.
    cbn [bind py_or truthy negb py_index0]. unfold py_or. rewrite Hws.
    reflexivity.
  - intros dws rest Hd Hpc. apply group_body_skip.
    unfold select_summary. cbn [py_get]. rewrite Hd.
    cbn [bind py_or truthy negb py_index0]. unfold py_or.
    destruct (truthy (VDict dws)) eqn:T.
    + cbn [py_get]. destruct Hpc as [-> | ->]; reflexivity.
    + reflexivity.
  - intros dws rest pc Hd Hpc Hne.
    assert (Hsel : select_summary (VDict d) = Ok (Some (VDict dws, pc))).
    { unfold select_summary. cbn [py_get]. rewrite Hd.
      cbn [bind py_or truthy negb py_index0]. unfold py_or.
      destruct dws as [|q dws']; [discriminate Hpc|].
      cbn [truthy py_get]. rewrite Hpc. cbn [bind].
      destruct pc; try reflexivity. congruence. }
    split; [exact Hsel|].
    destruct (work_reply w (requests st) pc) as [js|e] eqn:Hf.
    + rewrite (group_body_fetched _ _ _ _ _ _ _ Hsel Hf).
      destruct (assemble_row (py_or js (VDict [])) (VDict dws));
        cbn [snd trace]; eauto.
    + rewrite (group_body_fetch_failed _ _ _ _ _ _ _ Hsel Hf).
      cbn [snd trace]. eauto.
Qed.

Lemma group_passed_over_witness :
  group_body flaky_world [] (VDict [("work-summary", VList [])]) (mkState [] 0)
  = (Ok [], mkState [] 0)
  /\ select_summary
       (VDict [("work-summary", VList [VDict [("put-code", VInt 0)]])])
     = Ok (Some (VDict [("put-code", VInt 0)], VInt 0)).
Proof.
  split.
  - apply (group_passed_over flaky_world [] (mkState [] 0)
             [("work-summary", VList [])]). reflexivity.
  - apply (group_passed_over flaky_world [] (mkState [] 0)
             [("work-summary", VList [VDict [("put-code", VInt 0)]])])
      with (rest := []); [reflexivity | reflexivity | discriminate].
Defined.

Lemma get_groups_list_lacking (record : value) :
  isinstance_dict record = true ->
  lacks_path record ["activities-summary"; "works"; "group"] = true ->
  get_groups_list record = Ok [].
Proof.
  unfold get_groups_list. intros Hd H. chain2.
Qed.

(** X19: a record that is an object without any work group (a key on the
    way to the groups is missing or holds nothing) gives an empty table:
    no work request, one write of zero rows, status 0.  A record that is no
    object (a JSON list, string, number or null) ends the run with an
    unhandled [AttributeError], status 1, and nothing written. *)
Theorem record_without_groups (w : world) (record : value) :
  record_reply w = Ok record ->
  (isinstance_dict record = true ->
   lacks_path record ["activities-summary"; "works"; "group"] = true ->
   main w = mkOutcome 0 None [EFetchRecord; EWrite []])
  /\ (isinstance_dict record = false ->
      main w = mkOutcome 1 (Some AttributeError) [EFetchRecord]).
Proof.
  intros Hr. split.
  - intros Hd Hl. unfold main, after_record, bindP, lift, emit.
    rewrite Hr, (get_groups_list_lacking _ Hd Hl). reflexivity.
  - intros Hd. unfold main, after_record, bindP, lift.
    rewrite Hr. destruct record; try reflexivity. discriminate Hd.
Qed.

Lemma record_without_groups_witness :
  main (mkWorld (Ok (VDict [("activities-summary", VDict [("works", VNone)])]))
                (fun _ _ => Raise FetchError))
  = mkOutcome 0 None [EFetchRecord; EWrite []]
  /\ main (mkWorld (Ok (VList [])) (fun _ _ => Raise FetchError))
     = mkOutcome 1 (Some AttributeError) [EFetchRecord].
Proof.
  split.
  - apply (record_without_groups
             (mkWorld (Ok (VDict [("activities-summary",
                                   VDict [("works", VNone)])]))
                      (fun _ _ => Raise FetchError))
             (VDict [("activities-summary", VDict [("works", VNone)])])
             eq_refl); reflexivity.
  - apply (record_without_groups
             (mkWorld (Ok (VList [])) (fun _ _ => Raise FetchError))
             (VList []) eq_refl); reflexivity.
Defined.

(* ----------------------------------------------------------------- *)
(** ** Joining the authors, and the row of an empty detail reply *)

Lemma join_strings (sep : string) (items : list value) :
  forallb isinstance_str items = true -> is_ok (join sep items) = true.
Proof.
  induction items as [|x rest IH]; [reflexivity|].
  cbn [forallb]. intros H. apply andb_true_iff in H. destruct H as [Hx Hr].
  destruct x; try discriminate Hx. cbn [join].
  destruct rest as [|y rest']; [reflexivity|].
  specialize (IH Hr). destruct (join sep (y :: rest')); [reflexivity|].
  discriminate IH.
Qed.

Lemma join_not_strings (sep : string) (items : list value) :
  forallb isinstance_str items = false -> join sep items = Raise TypeError.
Proof.
  induction items as [|x rest IH]; [discriminate|].
  cbn [forallb]. intros H.
  destruct x; try reflexivity.
  cbn [isinstance_str andb] in H. specialize (IH H). cbn [join].
  destruct rest as [|y rest']; [discriminate H|].
  rewrite IH. reflexivity.
Qed.

Lemma authors_md_needs_strings_aux (names : list value) :
  (forallb isinstance_str names = true -> is_ok (authors_md names) = true)
  /\ (forallb isinstance_str names = false ->
      authors_md names = Raise TypeError).
Proof.
  unfold authors_md. split; intros H.
  - destruct names; [reflexivity|]. apply join_strings, H.
  - destruct names; [discriminate H|]. apply join_not_strings, H.
Qed.

(** X13: the author cell is built when every name is a string, and only
    then: one name that is no string (a credit name given as a number or a
    list) makes the join raise [TypeError]. *)
Theorem authors_md_needs_strings (names : list value) :
  (forallb isinstance_str names = true -> is_ok (authors_md names) = true)
  /\ (forallb isinstance_str names = false ->
      authors_md names = Raise TypeError).
Proof. apply authors_md_needs_strings_aux. Qed.

Lemma authors_md_needs_strings_witness :
  authors_md [VStr "A"; VInt 5] = Raise TypeError.
Proof.
  apply (authors_md_needs_strings [VStr "A"; VInt 5]). reflexivity.
Defined.

Lemma author_str_listed (v : value) :
  exists names,
    (if isinstance_str v && truthy v then Ok [v] else Ok [])
    = Ok names
    /\ forallb isinstance_str names = true.
Proof.
  destruct (isinstance_str v) eqn:E, (truthy v); cbn [andb].
  - exists [v]. cbn [forallb]. rewrite E. split; reflexivity.
  - exists []. split; reflexivity.
  - exists []. split; reflexivity.
  - exists []. split; reflexivity.
Qed.

Lemma row_authors_of_empty_detail (d : list (string * value)) :
  exists names,
    row_authors (VDict []) (VDict d) = Ok names
    /\ forallb isinstance_str names = true.
Proof.
  unfold row_authors. cbn [extract_contributors truthy negb bind py_get].
  destruct (dict_lookup d "author") as [a|]; cbn [bind].
  - destruct (truthy a); cbn [bind]; [apply author_str_listed|].
    destruct (dict_lookup d "credit-name"); cbn [bind];
      apply author_str_listed.
  - cbn [truthy].
    destruct (dict_lookup d "credit-name"); cbn [bind];
      apply author_str_listed.
Qed.

(** X20: when the detail reply is empty (null, an empty object, any falsy
    JSON value) the row is still built, from the summary alone: it carries
    the summary's year, no DOI and no link.  This holds for every summary
    object whose year can be read. *)
Theorem row_of_empty_detail (js : value) (d : list (string * value)) (y : value) :
  truthy js = false ->
  year_of_summary (VDict d) = Ok y ->
  exists t a j,
    assemble_row (py_or js (VDict [])) (VDict d)
    = Ok (mkRow t a j y "" (VStr "")).
Proof.
  intros Hjs Hy. unfold py_or. rewrite Hjs.
  destruct (row_authors_of_empty_detail d) as (names & Hn & Hstr).
  pose proof (proj1 (authors_md_needs_strings_aux names) Hstr) as Ha.
  destruct (authors_md names) as [a|] eqn:Ea; [|discriminate Ha].
  unfold assemble_row.
  unfold row_title at 1. cbn [extract_title truthy negb bind].
  rewrite Hn. cbn [bind]. rewrite Ea. cbn [bind].
  unfold row_journal at 1. cbn [extract_journal truthy negb bind].
  unfold extract_year. cbn [year_of_work truthy bind]. rewrite Hy.
  cbn [bind extract_doi_and_url truthy negb doi_md final_link andb].
  eauto.
Qed.

Lemma row_of_empty_detail_witness :
  exists t a j,
    assemble_row (py_or VNone (VDict [])) sample_summary
    = Ok (mkRow t a j (VStr "2020") "" (VStr "")).
Proof.
  unfold sample_summary.
  apply (row_of_empty_detail VNone _ (VStr "2020")); reflexivity.
Defined.
